(** * Imajin image compressor: the processing core

    A shallow embedding of [core/compressor.py], [core/converter.py],
    [core/conflict_checker.py] and [utils/metadata.py].

    - Python [str] is [string]; [os.path] follows [posixpath].
    - Exceptions are values: a fallible step returns [Exception + A].
    - The file system is a finite map from paths to files; the only step
      that changes it is [Image.save].
    - Pillow is the codec backend.  Its image object is a record; the pixel
      kernels and the encoder are operations of the class [Pillow]. *)

From Stdlib Require Import ZArith QArith Qround Ascii String List Lia.
From stdpp Require Import base strings gmap pretty.


Open Scope Z_scope.

(** ** Python strings *)

Module PyStr.

Definition lower_ascii (c : ascii) : ascii :=
  let n := N_of_ascii c in
  if ((65 <=? n) && (n <=? 90))%N then ascii_of_N (n + 32) else c.

Definition upper_ascii (c : ascii) : ascii :=
  let n := N_of_ascii c in
  if ((97 <=? n) && (n <=? 122))%N then ascii_of_N (n - 32) else c.

Fixpoint map_str (f : ascii → ascii) (s : string) : string :=
  match s with
  | EmptyString => EmptyString
  | String c s' => String (f c) (map_str f s')
  end.

(** [s.lower()] and [s.upper()] on ASCII text. *)
Definition lower : string → string := map_str lower_ascii.
Definition upper : string → string := map_str upper_ascii.

(** [s.startswith(pre)] *)
Fixpoint startswith (pre s : string) : bool :=
  match pre, s with
  | EmptyString, _ => true
  | String _ _, EmptyString => false
  | String a pre', String b s' => Ascii.eqb a b && startswith pre' s'
  end.

(** [needle in s] *)
Fixpoint contains (needle s : string) : bool :=
  startswith needle s ||
  match s with
  | EmptyString => false
  | String _ s' => contains needle s'
  end.

(** [s.endswith(c)] for a one-character [c]. *)
Fixpoint endswith_char (c : ascii) (s : string) : bool :=
  match s with
  | EmptyString => false
  | String x EmptyString => Ascii.eqb x c
  | String _ s' => endswith_char c s'
  end.

(** [s.rfind(c)] for a one-character [c]: the highest index, or [-1]. *)
Fixpoint rfind (s : string) (c : ascii) : Z :=
  match s with
  | EmptyString => -1
  | String x s' =>
      let r := rfind s' c in
      if 0 <=? r then r + 1 else if Ascii.eqb x c then 0 else -1
  end.

(** [s[:n]] and [s[n:]] for an index [0 <= n]. *)
Fixpoint take (n : nat) (s : string) : string :=
  match n, s with
  | S k, String c s' => String c (take k s')
  | _, _ => EmptyString
  end.

Fixpoint drop (n : nat) (s : string) : string :=
  match n, s with
  | S k, String _ s' => drop k s'
  | _, _ => s
  end.

(** [s[i:i+1]]: the one-character slice, empty past the end. *)
Definition slice1 (s : string) (i : Z) : string :=
  take 1 (drop (Z.to_nat i) s).

End PyStr.

(** ** [os.path] (posixpath) *)

Module OsPath.
Import PyStr.

Definition sep : ascii := "/"%char.
Definition extsep : ascii := "."%char.

(** [os.path.basename]: [i = p.rfind(sep) + 1; return p[i:]] *)
Definition basename (p : string) : string :=
  let i := rfind p sep + 1 in
  drop (Z.to_nat i) p.

(** [os.path.join(a, b)] with one component [b]. *)
Definition join (a b : string) : string :=
  if startswith "/" b then b
  else if String.eqb a "" || endswith_char sep a then a +:+ b
  else a +:+ "/" +:+ b.

(** The [while filenameIndex < dotIndex] loop of [genericpath._splitext];
    [n] is the number of iterations left, [dotIndex - filenameIndex]. *)
Fixpoint splitext_scan (p : string) (dotIndex : Z) (n : nat)
    (filenameIndex : Z) : string * string :=
  match n with
  | O => (p, "")
  | S k =>
      if negb (String.eqb (slice1 p filenameIndex) ".")
      then (take (Z.to_nat dotIndex) p, drop (Z.to_nat dotIndex) p)
      else splitext_scan p dotIndex k (filenameIndex + 1)
  end.

(** [os.path.splitext] *)
Definition splitext (p : string) : string * string :=
  let sepIndex := rfind p sep in
  let dotIndex := rfind p extsep in
  if sepIndex <? dotIndex then
    let filenameIndex := sepIndex + 1 in
    splitext_scan p dotIndex (Z.to_nat (dotIndex - filenameIndex)) filenameIndex
  else (p, "").

End OsPath.

(** ** Exceptions *)

Record Exception := mkException {
  exc_class : string;   (* the exception's class name *)
  exc_str : string      (* [str(e)] *)
}.

Definition Result (A : Type) : Type := Exception + A.

(** ** Numbers as [validate_quality] receives them *)

(** A finite [float] is the rational it denotes; infinities and NaN are
    kept apart because [int()] refuses them. *)
Inductive PyNumber :=
  | PyInt (z : Z)
  | PyFloat (q : Q)
  | PyInf (negative : bool)
  | PyNaN.

(** Truncation toward zero of a rational. *)
Definition Qtrunc (q : Q) : Z := Z.quot (Qnum q) (Zpos (Qden q)).

(** [int(x)] *)
Definition py_int (x : PyNumber) : Result Z :=
  match x with
  | PyInt z => inr z
  | PyFloat q => inr (Qtrunc q)
  | PyInf _ =>
      inl (mkException "OverflowError" "cannot convert float infinity to integer")
  | PyNaN =>
      inl (mkException "ValueError" "cannot convert float NaN to integer")
  end.

(** [compressor.validate_quality]:
    [return max(1, min(100, int(quality)))] *)
Definition validate_quality (quality : PyNumber) : Result Z :=
  match py_int quality with
  | inl e => inl e
  | inr n => inr (Z.max 1 (Z.min 100 n))
  end.

(** The clamp the specification writes [clamp(quality, 1, 100)]. *)
Definition clamp (q lo hi : Z) : Z :=
  if q <? lo then lo else if hi <? q then hi else q.

(** ** Pillow images *)

(** One pixel: its band values, in band order. *)
Definition Pixel := list Z.

(** The EXIF mapping [img.getexif()] returns: tag id to value. *)
Definition Exif := gmap Z string.

Record Image := mkImage {
  im_mode : string;            (* [img.mode] *)
  im_size : Z * Z;             (* [img.size] *)
  im_data : list Pixel;        (* [img.getdata()] *)
  im_format : option string;   (* [img.format]; [None] unless read from a file *)
  im_exif : Exif               (* what [img.getexif()] reads: the EXIF block
                                  held in [img.info] or, for an open TIFF
                                  file, the file's own tag directory *)
}.

(** [Image.getbands] for the standard modes. *)
Definition getbands (mode : string) : list string :=
  if String.eqb mode "RGBA" then ["R"; "G"; "B"; "A"]
  else if String.eqb mode "RGB" then ["R"; "G"; "B"]
  else if String.eqb mode "LA" then ["L"; "A"]
  else if String.eqb mode "PA" then ["P"; "A"]
  else if String.eqb mode "CMYK" then ["C"; "M"; "Y"; "K"]
  else if String.eqb mode "YCbCr" then ["Y"; "Cb"; "Cr"]
  else if String.eqb mode "HSV" then ["H"; "S"; "V"]
  else if String.eqb mode "LAB" then ["L"; "A"; "B"]
  else [mode].

(** [img.getexif()] *)
Definition getexif (img : Image) : Exif := im_exif img.

(** Truth value of an [Exif] mapping: it is true when it has an entry. *)
Definition exif_truthy (e : Exif) : bool := negb (bool_decide (e = ∅)).

(** The EXIF an image derived from [img] still has.  Pillow builds derived
    images with [Image._new], which copies [info] and not the open file: an
    EXIF block held in [info] (JPEG, PNG, WebP) is carried over, the tags
    that [getexif()] reads from a TIFF file's own directory are not. *)
Definition carried_exif (img : Image) : Exif :=
  if bool_decide (im_format img = Some "TIFF") then ∅ else im_exif img.

(** [Image.new(mode, size, color)]: every pixel is [color]; no file format,
    empty [info]. *)
Definition Image_new (mode : string) (size : Z * Z) (color : Pixel) : Image :=
  {| im_mode := mode;
     im_size := size;
     im_data := replicate (Z.to_nat (fst size * snd size)) color;
     im_format := None;
     im_exif := ∅ |}.

(** The default fill of [Image.new(mode, size)]: zero in every band. *)
Definition zero_pixel (mode : string) : Pixel :=
  replicate (length (getbands mode)) 0.

(** [img.getdata()] and [img.putdata(data)]: the new values overwrite the
    pixels from the upper left corner on. *)
Definition getdata (img : Image) : list Pixel := im_data img.

Definition putdata (img : Image) (data : list Pixel) : Image :=
  {| im_mode := im_mode img;
     im_size := im_size img;
     im_data := take (length (im_data img))
                  (data ++ drop (length data) (im_data img));
     im_format := im_format img;
     im_exif := im_exif img |}.

(** [img.split()]: one single-band image per band. *)
Definition band_image (img : Image) (k : nat) : Image :=
  {| im_mode := "L";
     im_size := im_size img;
     im_data := map (λ p, [nth k p 0]) (im_data img);
     im_format := None;
     im_exif := carried_exif img |}.

Definition split (img : Image) : list Image :=
  map (band_image img) (seq 0 (length (getbands (im_mode img)))).

(** ** The file system *)

Record File := mkFile {
  f_size : Z;                (* size in bytes *)
  f_mtime : Q;               (* modification time *)
  f_image : Result Image     (* what [Image.open], and the decoding it
                                leads to, make of the contents *)
}.

Abbreviation FS := (gmap string File).

(** The arguments of one [img.save(path, format=..., **kwargs)]. *)
Record SaveArgs := mkSaveArgs {
  sa_quality : option Z;
  sa_optimize : option bool;
  sa_method : option Z;
  sa_exif : option Exif
}.

Record SaveCall := mkSaveCall {
  sc_image : Image;
  sc_path : string;
  sc_format : option string;
  sc_args : SaveArgs
}.

(** The world a call runs in: the files, and the record of what has been
    handed to the encoder so far. *)
Record World := mkWorld {
  w_fs : FS;
  w_saved : list SaveCall
}.

(** ** The codec backend *)

Class Pillow := {
  (** pixel kernel of [img.convert(mode)]: source mode, target mode, pixel *)
  pil_convert_pixel : string → string → Pixel → Pixel;
  (** blend kernel of [paste]: mask value, destination band, source band *)
  pil_blend : Z → Z → Z → Z;
  (** [Image.save]: what the encoder does to the files *)
  pil_save : Image → string → option string → SaveArgs → FS → FS * Result unit;
  (** fixed-point rendering of a number, as in [f"{x:.2f}"] *)
  pil_fixed : nat → Q → string
}.

(** ** Computations: state and exceptions *)

Definition M (A : Type) : Type := World → World * Result A.

Definition ret {A} (a : A) : M A := λ w, (w, inr a).
Definition raise {A} (e : Exception) : M A := λ w, (w, inl e).

Definition bind {A B} (m : M A) (k : A → M B) : M B :=
  λ w, match m w with
       | (w', inl e) => (w', inl e)
       | (w', inr a) => k a w'
       end.

(** [try: m  except Exception as e: h e] *)
Definition try_except {A} (m : M A) (h : Exception → M A) : M A :=
  λ w, match m w with
       | (w', inl e) => h e w'
       | (w', inr a) => (w', inr a)
       end.

Definition lift {A} (r : Result A) : M A := λ w, (w, r).

Notation "'let*' x ':=' m 'in' k" := (bind m (λ x, k))
  (at level 10, x pattern, m at level 100, k at level 200).
Notation "m ';;' k" := (bind m (λ _, k))
  (at level 100, k at level 200, right associativity).

(** A function that runs to its end and catches everything returns a plain
    value. *)
Definition Total (A : Type) : Type := World → World * A.

Definition run_caught {A} (m : M A) (h : Exception → A) : Total A :=
  λ w, match m w with
       | (w', inl e) => (w', h e)
       | (w', inr a) => (w', a)
       end.

(** ** Library calls the core makes *)

Section Core.
Context `{Pillow}.

(** [Image.open(path)] *)
Definition Image_open (path : string) : M Image :=
  λ w, match w_fs w !! path with
       | None =>
           (w, inl (mkException "FileNotFoundError"
                      ("[Errno 2] No such file or directory: '" +:+ path +:+ "'")))
       | Some f => (w, f_image f)
       end.

(** [os.path.getsize(path)] *)
Definition getsize (path : string) : M Z :=
  λ w, match w_fs w !! path with
       | None =>
           (w, inl (mkException "FileNotFoundError"
                      ("[Errno 2] No such file or directory: '" +:+ path +:+ "'")))
       | Some f => (w, inr (f_size f))
       end.

(** [os.path.getmtime(path)] *)
Definition getmtime (path : string) : M Q :=
  λ w, match w_fs w !! path with
       | None =>
           (w, inl (mkException "FileNotFoundError"
                      ("[Errno 2] No such file or directory: '" +:+ path +:+ "'")))
       | Some f => (w, inr (f_mtime f))
       end.

(** [os.path.exists(path)] *)
Definition exists_ (fs : FS) (path : string) : bool :=
  bool_decide (is_Some (fs !! path)).

(** [img.save(path, format=fmt, **args)]: the call is recorded, the encoder
    acts on the files. *)
Definition Image_save (img : Image) (path : string) (fmt : option string)
    (args : SaveArgs) : M unit :=
  λ w, let '(fs', r) := pil_save img path fmt args (w_fs w) in
       ({| w_fs := fs';
           w_saved := w_saved w ++ [mkSaveCall img path fmt args] |}, r).

(** [img.convert(mode)]: a new image of the given mode and the same size,
    with the EXIF a derived image still has; the result has no file
    format. *)
Definition convert (img : Image) (mode : string) : Image :=
  {| im_mode := mode;
     im_size := im_size img;
     im_data := map (pil_convert_pixel (im_mode img) mode) (im_data img);
     im_format := None;
     im_exif := carried_exif img |}.

(** [dst.paste(src, mask=mask)]: each band of [dst] is blended with the same
    band of [src], weighted by the mask's value at that pixel.  [paste]
    updates [dst] in place; the updated image is returned here. *)
Definition paste_pixel (dst src m : Pixel) : Pixel :=
  zip_with (pil_blend (nth 0 m 0)) dst src.

Fixpoint paste_data (dst src mask : list Pixel) : list Pixel :=
  match dst, src, mask with
  | d :: dst', s :: src', m :: mask' =>
      paste_pixel d s m :: paste_data dst' src' mask'
  | _, _, _ => dst
  end.

Definition paste (dst src mask : Image) : Image :=
  {| im_mode := im_mode dst;
     im_size := im_size dst;
     im_data := paste_data (im_data dst) (im_data src) (im_data mask);
     im_format := im_format dst;
     im_exif := im_exif dst |}.

(** [xs[i]] on a Python list. *)
Definition py_index {A} (xs : list A) (i : nat) : M A :=
  match xs !! i with
  | Some x => ret x
  | None => raise (mkException "IndexError" "list index out of range")
  end.

(** [a / b] on integers. *)
Definition py_truediv (a b : Z) : M Q :=
  if b =? 0 then raise (mkException "ZeroDivisionError" "division by zero")
  else ret (inject_Z a / inject_Z b)%Q.

Definition MB : Q := inject_Z (1024 * 1024).

(** ** [core/compressor.py] *)

(** The result tuple [(success, message, file_size_reduction)]. *)
Definition ProcessingResult : Type := bool * string * Q.

Definition is_jpeg_rgba (original_format : option string) (img : Image) : bool :=
  bool_decide (original_format = Some "JPEG") && String.eqb (im_mode img) "RGBA".

Definition compress_image_try (input_path output_path : string) (quality : Z)
    (remove_metadata : bool) : M ProcessingResult :=
  let* img := Image_open input_path in
  let* original_size := getsize input_path in
  let original_format := im_format img in
  let save_kwargs :=
    {| sa_quality := Some quality; sa_optimize := Some true;
       sa_method := None; sa_exif := None |} in
  (if remove_metadata then
     let img := if is_jpeg_rgba original_format img
                then convert img "RGB" else img in
     Image_save img output_path original_format save_kwargs
   else
     let exif_data := getexif img in
     let save_kwargs :=
       if exif_truthy exif_data
       then {| sa_quality := sa_quality save_kwargs;
               sa_optimize := sa_optimize save_kwargs;
               sa_method := sa_method save_kwargs;
               sa_exif := Some exif_data |}
       else save_kwargs in
     let img := if is_jpeg_rgba original_format img
                then convert img "RGB" else img in
     Image_save img output_path original_format save_kwargs);;
  let* compressed_size := getsize output_path in
  let* ratio := py_truediv (original_size - compressed_size) original_size in
  let size_reduction := (ratio * inject_Z 100)%Q in
  let original_mb := (inject_Z original_size / MB)%Q in
  let compressed_mb := (inject_Z compressed_size / MB)%Q in
  let message :=
    "Compressed: " +:+ pil_fixed 2 original_mb +:+ " MB → "
      +:+ pil_fixed 2 compressed_mb +:+ " MB ("
      +:+ pil_fixed 1 size_reduction +:+ "% reduction)" in
  ret (true, message, size_reduction).

Definition compress_image (input_path output_path : string) (quality : Z)
    (remove_metadata : bool) : Total ProcessingResult :=
  run_caught (compress_image_try input_path output_path quality remove_metadata)
    (λ e, (false, "Error: " +:+ exc_str e, 0%Q)).

(** ** [core/converter.py] *)

Definition white : Pixel := [255; 255; 255].

(** The colour-mode block of [convert_image]:
    [if img.mode in ('RGBA', 'LA', 'P'): ... elif img.mode != 'RGB': ...] *)
Definition normalize_mode (target_format : string) (img : Image) : M Image :=
  if existsb (String.eqb (im_mode img)) ["RGBA"; "LA"; "P"] then
    if String.eqb (PyStr.lower target_format) "webp"
       && String.eqb (im_mode img) "RGBA"
    then ret img
    else
      if String.eqb (im_mode img) "RGBA" then
        let background := Image_new "RGB" (im_size img) white in
        let* alpha := py_index (split img) 3 in
        ret (paste background img alpha)
      else ret (convert img "RGB")
  else if negb (String.eqb (im_mode img) "RGB") then ret (convert img "RGB")
  else ret img.

(** The [save_kwargs] of [convert_image], metadata handling included. *)
Definition convert_save_kwargs (target_format : string) (quality : Z)
    (remove_metadata : bool) (img : Image) : SaveArgs :=
  let save_kwargs :=
    {| sa_quality := Some quality; sa_optimize := None;
       sa_method := Some 6; sa_exif := None |} in
  if negb remove_metadata then
    let exif_data := getexif img in
    if exif_truthy exif_data && String.eqb (PyStr.lower target_format) "webp"
    then {| sa_quality := sa_quality save_kwargs;
            sa_optimize := sa_optimize save_kwargs;
            sa_method := sa_method save_kwargs;
            sa_exif := Some exif_data |}
    else save_kwargs
  else save_kwargs.

(** The test of the inner handler: is this a missing plugin error? *)
Definition looks_like_missing_plugin (avif_error : Exception) : bool :=
  PyStr.contains "cannot write mode" (PyStr.lower (exc_str avif_error))
  || PyStr.contains "avif" (PyStr.lower (exc_str avif_error)).

Definition avif_plugin_message : string :=
  "AVIF plugin not installed. Install with: pip install pillow-avif-plugin".

(** The path [convert_image] writes to: the extension of [output_path] is
    replaced; no path for a target that is neither WebP nor AVIF. *)
Definition convert_output_path (output_path target_format : string)
    : option string :=
  let base_name := fst (OsPath.splitext output_path) in
  if String.eqb (PyStr.lower target_format) "webp" then Some (base_name +:+ ".webp")
  else if String.eqb (PyStr.lower target_format) "avif" then Some (base_name +:+ ".avif")
  else None.

(** The encoding step: either the function returns at once (left), or it
    goes on with the path it wrote to (right). *)
Definition convert_encode (img : Image) (output_path target_format : string)
    (save_kwargs : SaveArgs) : M (ProcessingResult + string) :=
  let base_name := fst (OsPath.splitext output_path) in
  if String.eqb (PyStr.lower target_format) "webp" then
    let output_path := base_name +:+ ".webp" in
    Image_save img output_path (Some "WEBP") save_kwargs;;
    ret (inr output_path)
  else if String.eqb (PyStr.lower target_format) "avif" then
    let output_path := base_name +:+ ".avif" in
    try_except
      (Image_save img output_path (Some "AVIF") save_kwargs;;
       ret (inr output_path))
      (λ avif_error,
         if looks_like_missing_plugin avif_error
         then ret (inl (false, avif_plugin_message, 0%Q))
         else raise avif_error)
  else
    ret (inl (false, "Unsupported target format: " +:+ target_format, 0%Q)).

Definition convert_image_try (input_path output_path target_format : string)
    (quality : Z) (remove_metadata : bool) : M ProcessingResult :=
  let* img := Image_open input_path in
  let* original_size := getsize input_path in
  let* img := normalize_mode target_format img in
  let save_kwargs :=
    convert_save_kwargs target_format quality remove_metadata img in
  let* step := convert_encode img output_path target_format save_kwargs in
  match step with
  | inl early => ret early
  | inr output_path =>
      let* converted_size := getsize output_path in
      let* ratio := py_truediv (original_size - converted_size) original_size in
      let size_reduction := (ratio * inject_Z 100)%Q in
      let original_mb := (inject_Z original_size / MB)%Q in
      let converted_mb := (inject_Z converted_size / MB)%Q in
      let message :=
        "Converted to " +:+ PyStr.upper target_format +:+ ": "
          +:+ pil_fixed 2 original_mb +:+ " MB → "
          +:+ pil_fixed 2 converted_mb +:+ " MB ("
          +:+ pil_fixed 1 size_reduction +:+ "% reduction)" in
      ret (true, message, size_reduction)
  end.

Definition convert_image (input_path output_path target_format : string)
    (quality : Z) (remove_metadata : bool) : Total ProcessingResult :=
  run_caught
    (convert_image_try input_path output_path target_format quality
       remove_metadata)
    (λ e, (false, "Error: " +:+ exc_str e, 0%Q)).

(** ** [core/conflict_checker.py] *)

(** One entry of the list [check_conflicts] returns. *)
Record Conflict := mkConflict {
  c_input : string;
  c_output : string;
  c_existing_size : Z;
  c_existing_modified : Q;
  c_output_filename : string
}.

(** The file name [check_conflicts] derives for one input. *)
Definition output_filename (output_format input_path : string) : string :=
  let input_basename := OsPath.basename input_path in
  if String.eqb output_format "Keep Original" then input_basename
  else if String.eqb output_format "WebP" then
    let base_name := fst (OsPath.splitext input_basename) in
    base_name +:+ ".webp"
  else if String.eqb output_format "AVIF" then
    let base_name := fst (OsPath.splitext input_basename) in
    base_name +:+ ".avif"
  else input_basename.

(** The path [check_conflicts] predicts for one input. *)
Definition predicted_output_path (output_folder output_format input_path : string)
    : string :=
  OsPath.join output_folder (output_filename output_format input_path).

(** The size and time of an existing file, with the fallback of the
    [except] branch.  In this file system the attributes of a present file
    can always be read, so the fallback is kept as the code has it but is
    not reached. *)
Definition existing_info (w : World) (output_path : string) : Z * Q :=
  match getsize output_path w, getmtime output_path w with
  | (_, inr existing_size), (_, inr existing_modified) =>
      (existing_size, existing_modified)
  | _, _ => (0, 0%Q)
  end.

Fixpoint check_conflicts (w : World) (image_paths : list string)
    (output_folder output_format : string) : list Conflict :=
  match image_paths with
  | [] => []
  | input_path :: rest =>
      let output_path :=
        predicted_output_path output_folder output_format input_path in
      let later := check_conflicts w rest output_folder output_format in
      if exists_ (w_fs w) output_path then
        let '(existing_size, existing_modified) := existing_info w output_path in
        mkConflict input_path output_path existing_size existing_modified
          (output_filename output_format input_path) :: later
      else later
  end.

(** ** [utils/metadata.py] *)

Definition has_exif_data (image_path : string) : Total bool :=
  run_caught
    (let* img := Image_open image_path in
     let exif_data := getexif img in
     ret (bool_decide (0 < size exif_data)%nat))
    (λ _, false).

Definition no_save_args : SaveArgs :=
  {| sa_quality := None; sa_optimize := None; sa_method := None;
     sa_exif := None |}.

Definition strip_metadata (image_path output_path : string)
    : Total (bool * string) :=
  run_caught
    (let* img := Image_open image_path in
     let img_format := im_format img in
     let data := getdata img in
     let image_without_exif :=
       Image_new (im_mode img) (im_size img) (zero_pixel (im_mode img)) in
     let image_without_exif := putdata image_without_exif data in
     Image_save image_without_exif output_path img_format no_save_args;;
     ret (true, "Metadata removed successfully"))
    (λ e, (false, "Error removing metadata: " +:+ exc_str e)).

(** ** Conditions on the backend *)

(** No encoder is registered for AVIF: [save] fails when it looks up the
    handler, with [KeyError('AVIF')], before any file is touched. *)
Definition avif_encoder_missing : Prop :=
  ∀ img path args fs,
    pil_save img path (Some "AVIF") args fs
    = (fs, inl (mkException "KeyError" "'AVIF'")).

(** A file of format [fmt], written without EXIF, shows none: a successful
    [save] in that format of an image without EXIF, with no [exif]
    argument, leaves a file for which [getexif()] is empty when it is
    opened.  JPEG, PNG and WebP are such formats; TIFF is not, because
    [getexif()] on a TIFF file lists the tags of the file's directory. *)
Definition shows_no_exif_unasked (fmt : option string) : Prop :=
  ∀ img path args fs fs' f img',
    pil_save img path fmt args fs = (fs', inr tt) →
    sa_exif args = None → im_exif img = ∅ →
    fs' !! path = Some f → f_image f = inr img' → im_exif img' = ∅.

End Core.

(** ** A reference backend

    A small codec to run the core on concrete files.  Its [save] follows the
    steps of Pillow's [Image.save]: look up the handler of the format (a
    missing handler is a [KeyError] before any file is touched), open the
    file for writing (which creates or truncates it), run the encoder, and
    on an encoder error remove the file only if this call created it. *)

Module Reference.

Definition convert_pixel (src dst : string) (p : Pixel) : Pixel :=
  if String.eqb dst "RGB" then
    if String.eqb src "L" || String.eqb src "LA"
    then [nth 0 p 0; nth 0 p 0; nth 0 p 0]
    else take 3 (p ++ [0; 0; 0])
  else p.

Definition blend (m d s : Z) : Z := (s * m + d * (255 - m)) / 255.

Definition registered : list string :=
  ["JPEG"; "PNG"; "WEBP"; "GIF"; "BMP"; "TIFF"].

Definition webp_max_side : Z := 16383.

(** Why the encoder of a registered format refuses an image, if it does. *)
Definition encoder_error (fmt : string) (img : Image) : option Exception :=
  if String.eqb fmt "JPEG"
     && negb (existsb (String.eqb (im_mode img)) ["1"; "L"; "RGB"; "CMYK"])
  then Some (mkException "OSError"
               ("cannot write mode " +:+ im_mode img +:+ " as JPEG"))
  else if String.eqb fmt "WEBP"
          && ((webp_max_side <? fst (im_size img))
              || (webp_max_side <? snd (im_size img)))
  then Some (mkException "ValueError"
               "encoding error 5: Image size exceeds WebP limit of 16383 pixels")
  else None.

Definition encoded_size (img : Image) (args : SaveArgs) : Z :=
  let q := default 75 (sa_quality args) in
  64 + (Z.of_nat (length (im_data img))
        * Z.of_nat (length (getbands (im_mode img))) * q) / 100.

Definition empty_file (path : string) : File :=
  {| f_size := 0; f_mtime := 0%Q;
     f_image := inl (mkException "UnidentifiedImageError"
                       ("cannot identify image file '" +:+ path +:+ "'")) |}.

(** The tags every TIFF file has in its directory: ImageWidth (256) and
    ImageLength (257). *)
Definition tiff_directory (img : Image) : Exif :=
  {[ 256 := pretty (fst (im_size img)); 257 := pretty (snd (im_size img)) ]}.

(** What [getexif()] reads from the written file: the EXIF it was given,
    and for a TIFF file the tags of its directory as well. *)
Definition written_exif (img : Image) (fmt : string) (args : SaveArgs) : Exif :=
  if String.eqb fmt "TIFF"
  then default ∅ (sa_exif args) ∪ tiff_directory img
  else default ∅ (sa_exif args).

Definition written_file (img : Image) (fmt : string) (args : SaveArgs) : File :=
  {| f_size := encoded_size img args; f_mtime := 0%Q;
     f_image := inr {| im_mode := im_mode img; im_size := im_size img;
                       im_data := im_data img; im_format := Some fmt;
                       im_exif := written_exif img fmt args |} |}.

Definition save (img : Image) (path : string) (fmt : option string)
    (args : SaveArgs) (fs : FS) : FS * Result unit :=
  match fmt with
  | None => (fs, inl (mkException "ValueError" "unknown file extension"))
  | Some fmt =>
      let fmt := PyStr.upper fmt in
      if negb (existsb (String.eqb fmt) registered)
      then (fs, inl (mkException "KeyError" ("'" +:+ fmt +:+ "'")))
      else
        let created := negb (bool_decide (is_Some (fs !! path))) in
        let opened := <[path := empty_file path]> fs in
        match encoder_error fmt img with
        | Some e => (if created then delete path opened else opened, inl e)
        | None => (<[path := written_file img fmt args]> fs, inr tt)
        end
  end.

(** A plain rendering with [n] decimals (round half up). *)
Definition fixed (n : nat) (q : Q) : string :=
  let scale := 10 ^ Z.of_nat n in
  let v := Qfloor (q * inject_Z scale + (1 # 2))%Q in
  let a := Z.abs v in
  let frac := pretty (a mod scale) in
  (if v <? 0 then "-" else "") +:+ pretty (a / scale) +:+
  (if (0 <? n)%nat
   then "." +:+ string_of_list_ascii
                  (replicate (n - String.length frac) "0"%char) +:+ frac
   else "").

Definition pillow : Pillow :=
  {| pil_convert_pixel := convert_pixel;
     pil_blend := blend;
     pil_save := save;
     pil_fixed := fixed |}.

(** *** Files for the examples *)

Definition file_of (bytes : Z) (img : Image) : File :=
  {| f_size := bytes; f_mtime := 0%Q; f_image := inr img |}.

Definition world_of (files : list (string * File)) : World :=
  {| w_fs := list_to_map files; w_saved := [] |}.

(** A 2x1 RGB JPEG with an EXIF orientation tag. *)
Definition rgb_jpeg : Image :=
  {| im_mode := "RGB"; im_size := (2, 1);
     im_data := [[10; 20; 30]; [40; 50; 60]];
     im_format := Some "JPEG"; im_exif := {[ 274 := "1" ]} |}.

(** A 2x1 greyscale JPEG with an EXIF orientation tag. *)
Definition grey_jpeg : Image :=
  {| im_mode := "L"; im_size := (2, 1); im_data := [[10]; [200]];
     im_format := Some "JPEG"; im_exif := {[ 274 := "1" ]} |}.

(** A 2x1 greyscale TIFF: its directory tags and an orientation tag. *)
Definition grey_tiff : Image :=
  {| im_mode := "L"; im_size := (2, 1); im_data := [[10]; [200]];
     im_format := Some "TIFF";
     im_exif := {[ 256 := "2"; 257 := "1"; 274 := "1" ]} |}.

(** A 2x1 greyscale PNG with an alpha band. *)
Definition la_png : Image :=
  {| im_mode := "LA"; im_size := (2, 1); im_data := [[10; 0]; [200; 255]];
     im_format := Some "PNG"; im_exif := ∅ |}.

(** A 2x1 RGBA PNG: one transparent and one opaque pixel. *)
Definition rgba_png : Image :=
  {| im_mode := "RGBA"; im_size := (2, 1);
     im_data := [[10; 20; 30; 0]; [40; 50; 60; 255]];
     im_format := Some "PNG"; im_exif := ∅ |}.

(** A 20000x1 RGB PNG, wider than WebP allows. *)
Definition wide_png : Image :=
  {| im_mode := "RGB"; im_size := (20000, 1);
     im_data := replicate (Z.to_nat 20000) [0; 0; 0];
     im_format := Some "PNG"; im_exif := ∅ |}.

(** One input file each. *)
Definition world_rgb_jpeg : World :=
  world_of [("in/a.jpg", file_of 100 rgb_jpeg)].

Definition world_tiny_jpeg : World :=
  world_of [("in/t.jpg", file_of 10 rgb_jpeg)].

Definition world_grey_jpeg : World :=
  world_of [("in/g.jpg", file_of 100 grey_jpeg)].

Definition world_grey_tiff : World :=
  world_of [("in/s.tif", file_of 100 grey_tiff)].

Definition world_la_png : World :=
  world_of [("in/a.png", file_of 100 la_png)].

Definition world_rgba_png : World :=
  world_of [("in/a.png", file_of 100 rgba_png)].

(** The wide PNG, and a 500 byte file already at the WebP output path. *)
Definition world_wide_png : World :=
  world_of [("in/wide.png", file_of 90000 wide_png);
            ("out/wide.webp", file_of 500 rgb_jpeg)].

(** The white composite of [rgba_png]. *)
Definition rgba_png_on_white : Image :=
  {| im_mode := "RGB"; im_size := (2, 1);
     im_data := [[255; 255; 255]; [40; 50; 60]];
     im_format := None; im_exif := ∅ |}.

End Reference.

(** * The rest of the core *)

(** ** [converter.get_supported_formats], [converter.is_avif_supported] *)

(** [v in exts.values()] for the mapping [Image.registered_extensions()]
    returns, from file extension to format name. *)
Definition in_values (v : string) (exts : gmap string string) : bool :=
  bool_decide (v ∈ (map_to_list exts).*2).

(** Both functions take what [Image.registered_extensions()] gives in the
    running interpreter: the mapping, or the exception raised by the import
    or by the call. *)
Definition get_supported_formats
    (registered_extensions : Result (gmap string string)) : list string :=
  let formats := ["Keep Original"; "WebP"] in
  match registered_extensions with
  | inr exts =>
      if in_values "AVIF" exts then formats ++ ["AVIF"] else formats
  | inl _ => formats
  end.

Definition is_avif_supported
    (registered_extensions : Result (gmap string string)) : bool :=
  match registered_extensions with
  | inr exts => in_values "AVIF" exts
  | inl _ => false
  end.

(** ** [conflict_checker.format_file_size] *)

Section Display.
Context `{Pillow}.

(** [size_bytes] is an integer, as [os.path.getsize] returns it; the
    quotients are rendered with one decimal, [f"{x:.1f}"]. *)
Definition format_file_size (size_bytes : Z) : string :=
  if size_bytes <? 1024 then pretty size_bytes +:+ " B"
  else if size_bytes <? 1024 * 1024 then
    pil_fixed 1 (inject_Z size_bytes / inject_Z 1024)%Q +:+ " KB"
  else if size_bytes <? 1024 * 1024 * 1024 then
    pil_fixed 1 (inject_Z size_bytes / inject_Z (1024 * 1024))%Q +:+ " MB"
  else
    pil_fixed 1 (inject_Z size_bytes / inject_Z (1024 * 1024 * 1024))%Q
      +:+ " GB".

End Display.

(** ** [metadata.get_exif_info] *)

(** A key of the dictionary [get_exif_info] returns: the tag's name, or the
    tag id itself when the table has no name for it. *)
Definition ExifKey : Type := string + Z.

(** [Image.ExifTags.TAGS.get(tag_id, tag_id)] *)
Definition tag_name (TAGS : gmap Z string) (tag_id : Z) : ExifKey :=
  match TAGS !! tag_id with
  | Some name => inl name
  | None => inr tag_id
  end.

(** The loop [for tag_id, value in exif_data.items(): exif_dict[tag_name] = value]
    over the items in the order they are visited. *)
Definition exif_dict_of_items (TAGS : gmap Z string)
    (items : list (Z * string)) : gmap ExifKey string :=
  foldl (λ exif_dict '(tag_id, value), <[tag_name TAGS tag_id := value]> exif_dict)
    ∅ items.

(** [TAGS] is what [Image.ExifTags.TAGS] evaluates to: the table, or the
    exception the attribute access raises.  The items are visited in the
    order of the map's listing. *)
Definition get_exif_info (TAGS : Result (gmap Z string)) (image_path : string)
    : Total (gmap ExifKey string) :=
  run_caught
    (let* img := Image_open image_path in
     let exif_data := getexif img in
     if exif_truthy exif_data then
       let* tags := lift TAGS in
       ret (exif_dict_of_items tags (map_to_list exif_data))
     else ret ∅)
    (λ _, ∅).

(** What a finite number denotes; nothing for infinities and NaN. *)
Definition finite_value (x : PyNumber) : option Q :=
  match x with
  | PyInt z => Some (inject_Z z)
  | PyFloat q => Some q
  | PyInf _ | PyNaN => None
  end.

(** Rounding toward zero, as the specification words it: down for a
    non-negative number, up for a negative one. *)
Definition toward_zero (q : Q) : Z :=
  if Qle_bool 0 q then Qfloor q else Qceiling q.

(** [len(s)] *)
Definition slen (s : string) : Z := Z.of_nat (String.length s).

(** A directory prefix: empty, or ending with the separator. *)
Definition dir_prefix (a : string) : Prop :=
  a = "" ∨ PyStr.endswith_char OsPath.sep a = true.

(** * Facts about strings and paths *)

Section PathFacts.
Import PyStr OsPath.

Lemma append_nil (b : string) : "" +:+ b = b.
Proof. reflexivity. Qed.

Lemma append_cons (x : ascii) (a b : string) :
  String x a +:+ b = String x (a +:+ b).
Proof. reflexivity. Qed.

Lemma app_assoc_str (a b c : string) : (a +:+ b) +:+ c = a +:+ b +:+ c.
Proof.
  induction a as [|x a IH]; [done|]. rewrite !append_cons. by f_equal.
Qed.

Lemma slen_app (a b : string) : slen (a +:+ b) = slen a + slen b.
Proof.
  unfold slen. induction a as [|x a IH]; [rewrite append_nil; simpl; lia|].
  rewrite append_cons. simpl String.length. lia.
Qed.

Lemma slen_nonneg (s : string) : 0 ≤ slen s.
Proof. unfold slen. lia. Qed.

Lemma rfind_lower (s : string) (c : ascii) : -1 ≤ rfind s c.
Proof.
  induction s as [|x s IH]; simpl; [lia|].
  destruct (0 <=? rfind s c) eqn:E; [lia|]. destruct (Ascii.eqb x c); lia.
Qed.

Lemma rfind_upper (s : string) (c : ascii) : rfind s c < slen s.
Proof.
  unfold slen. induction s as [|x s IH]; simpl String.length; simpl rfind; [lia|].
  destruct (0 <=? rfind s c) eqn:E; [lia|]. destruct (Ascii.eqb x c); lia.
Qed.

(** The needle occurs in the right part: the index shifts. *)
Lemma rfind_app_found (a b : string) (c : ascii) :
  0 ≤ rfind b c → rfind (a +:+ b) c = slen a + rfind b c.
Proof.
  intros Hb. unfold slen. induction a as [|x a IH]; [rewrite append_nil; simpl; lia|].
  rewrite append_cons. simpl. rewrite IH. destruct (0 <=? _) eqn:E; lia.
Qed.

(** The needle does not occur in the right part: it is sought on the left. *)
Lemma rfind_app_absent (a b : string) (c : ascii) :
  rfind b c = -1 → rfind (a +:+ b) c = rfind a c.
Proof.
  intros Hb. induction a as [|x a IH]; [done|].
  rewrite append_cons. simpl. by rewrite IH.
Qed.

Lemma rfind_take_absent (n : nat) (s : string) (c : ascii) :
  rfind s c = -1 → rfind (take n s) c = -1.
Proof.
  revert n. induction s as [|x s IH]; intros [|n] Hs; simpl; try done.
  simpl in Hs. pose proof (rfind_lower s c).
  destruct (0 <=? rfind s c) eqn:E; [lia|].
  assert (rfind s c = -1) as Hs' by lia.
  rewrite (IH n Hs'). simpl. by destruct (Ascii.eqb x c).
Qed.

Lemma slen_cons (x : ascii) (s : string) : slen (String x s) = slen s + 1.
Proof. unfold slen. simpl String.length. lia. Qed.

Lemma rfind_cons (x : ascii) (s : string) (c : ascii) :
  rfind (String x s) c
  = if 0 <=? rfind s c then rfind s c + 1
    else if Ascii.eqb x c then 0 else -1.
Proof. reflexivity. Qed.

Lemma endswith_cons (x y : ascii) (s : string) (c : ascii) :
  endswith_char c (String x (String y s)) = endswith_char c (String y s).
Proof. reflexivity. Qed.

Lemma rfind_ends (s : string) (c : ascii) :
  endswith_char c s = true → rfind s c = slen s - 1.
Proof.
  induction s as [|x s IH]; [done|].
  destruct s as [|y s].
  - simpl. by intros ->.
  - rewrite endswith_cons. intros Hs. specialize (IH Hs).
    rewrite rfind_cons, IH, (slen_cons x).
    pose proof (slen_nonneg s). rewrite (slen_cons y) in *.
    destruct (0 <=? _) eqn:E; lia.
Qed.

Lemma rfind_ends_other (s : string) (c d : ascii) :
  endswith_char c s = true → c ≠ d → rfind s d < slen s - 1.
Proof.
  induction s as [|x s IH]; [done|].
  destruct s as [|y s].
  - simpl. intros Hx%Ascii.eqb_eq Hne. subst x.
    destruct (Ascii.eqb c d) eqn:E; [apply Ascii.eqb_eq in E; done|].
    unfold slen. simpl. lia.
  - rewrite endswith_cons. intros Hs Hne. specialize (IH Hs Hne).
    rewrite rfind_cons, (slen_cons x).
    destruct (0 <=? _) eqn:E; [lia|].
    pose proof (slen_nonneg s). rewrite (slen_cons y) in *.
    destruct (Ascii.eqb x d); lia.
Qed.

Lemma take_app_str (a b : string) (n : nat) :
  take (String.length a + n) (a +:+ b) = a +:+ take n b.
Proof.
  induction a as [|x a IH]; [done|]. rewrite append_cons. simpl. by rewrite IH.
Qed.

Lemma drop_app_str (a b : string) (n : nat) :
  drop (String.length a + n) (a +:+ b) = drop n b.
Proof. induction a as [|x a IH]; [done|]. rewrite append_cons. by simpl. Qed.

Lemma slice1_app (a b : string) (i : Z) :
  0 ≤ i → slice1 (a +:+ b) (slen a + i) = slice1 b i.
Proof.
  intros Hi. unfold slice1, slen.
  replace (Z.to_nat (Z.of_nat (String.length a) + i))
    with (String.length a + Z.to_nat i)%nat by lia.
  by rewrite drop_app_str.
Qed.

(** The scan of [splitext] does not look at what precedes the file name. *)
Lemma splitext_scan_app (a b : string) (d : Z) (n : nat) (i : Z) :
  0 ≤ i → 0 ≤ d →
  splitext_scan (a +:+ b) (slen a + d) n (slen a + i)
  = (a +:+ fst (splitext_scan b d n i), snd (splitext_scan b d n i)).
Proof.
  intros Hi Hd. revert i Hi. induction n as [|n IH]; intros i Hi; simpl; [done|].
  rewrite slice1_app by done.
  destruct (negb (String.eqb (slice1 b i) ".")).
  - simpl. unfold slen.
    replace (Z.to_nat (Z.of_nat (String.length a) + d))
      with (String.length a + Z.to_nat d)%nat by lia.
    by rewrite take_app_str, drop_app_str.
  - replace (slen a + i + 1) with (slen a + (i + 1)) by lia.
    apply IH. lia.
Qed.

(** [splitext] of a file name behind a directory prefix splits the name. *)
Lemma splitext_app (a b : string) :
  dir_prefix a → rfind b sep = -1 →
  splitext (a +:+ b) = (a +:+ fst (splitext b), snd (splitext b)).
Proof.
  intros [-> | Ha] Hb; [rewrite !append_nil; by destruct (splitext b)|].
  unfold splitext. rewrite Hb.
  rewrite (rfind_app_absent a b sep Hb), (rfind_ends a sep Ha).
  pose proof (rfind_lower b extsep) as Hlo.
  destruct (Z.eq_dec (rfind b extsep) (-1)) as [Hd | Hd].
  - rewrite (rfind_app_absent a b extsep Hd), Hd.
    pose proof (rfind_ends_other a sep extsep Ha) as Hlt.
    destruct (slen a - 1 <? rfind a extsep) eqn:E; [|done].
    apply Z.ltb_lt in E. unfold sep, extsep in *.
    assert ("/"%char ≠ "."%char) as Hne by done. specialize (Hlt Hne). lia.
  - assert (0 ≤ rfind b extsep) as Hd' by lia.
    rewrite (rfind_app_found a b extsep Hd').
    pose proof (slen_nonneg a).
    destruct (slen a - 1 <? slen a + rfind b extsep) eqn:E1;
      [|apply Z.ltb_ge in E1; lia].
    destruct (-1 <? rfind b extsep) eqn:E2; [|apply Z.ltb_ge in E2; lia].
    replace (slen a - 1 + 1) with (slen a + 0) by lia.
    replace (slen a + rfind b extsep - (slen a + 0))
      with (rfind b extsep - (-1 + 1)) by lia.
    by apply splitext_scan_app.
Qed.

Lemma splitext_scan_fst (p : string) (d : Z) (n : nat) (i : Z) :
  fst (splitext_scan p d n i) = p
  ∨ fst (splitext_scan p d n i) = take (Z.to_nat d) p.
Proof.
  revert i. induction n as [|n IH]; intros i; simpl; [by left|].
  destruct (negb _); [by right | apply IH].
Qed.

Lemma splitext_root_no_sep (b : string) :
  rfind b sep = -1 → rfind (fst (splitext b)) sep = -1.
Proof.
  intros Hb. unfold splitext. destruct (_ <? _); [|done].
  destruct (splitext_scan_fst b (rfind b extsep)
              (Z.to_nat (rfind b extsep - (rfind b sep + 1)))
              (rfind b sep + 1)) as [-> | ->]; [done|].
  by apply rfind_take_absent.
Qed.

Lemma rfind_basename (p : string) : rfind (basename p) sep = -1.
Proof.
  unfold basename. induction p as [|x p IH]; [done|].
  rewrite rfind_cons. pose proof (rfind_lower p sep) as Hlo.
  destruct (0 <=? rfind p sep) eqn:E.
  - apply Z.leb_le in E.
    replace (Z.to_nat (rfind p sep + 1 + 1))
      with (S (Z.to_nat (rfind p sep + 1))) by lia.
    exact IH.
  - apply Z.leb_gt in E. assert (rfind p sep = -1) as Hp by lia.
    destruct (Ascii.eqb x sep) eqn:Ex; simpl; [done|].
    by rewrite Hp, Ex.
Qed.

Lemma no_sep_startswith (b : string) :
  rfind b sep = -1 → startswith "/" b = false.
Proof.
  destruct b as [|x b]; [done|]. rewrite rfind_cons.
  pose proof (rfind_lower b sep).
  destruct (0 <=? rfind b sep) eqn:E; [apply Z.leb_le in E; lia|].
  destruct (Ascii.eqb x sep) eqn:Ex; [lia|]. intros _.
  change (Ascii.eqb "/" x && startswith "" b = false).
  rewrite Ascii.eqb_sym. unfold sep in Ex. by rewrite Ex.
Qed.

Lemma endswith_snoc (a : string) (c : ascii) :
  endswith_char c (a +:+ String c "") = true.
Proof.
  induction a as [|x a IH]; [simpl; apply Ascii.eqb_refl|].
  rewrite append_cons. destruct a as [|y a]; [simpl; apply Ascii.eqb_refl|].
  rewrite append_cons in *. by rewrite endswith_cons.
Qed.

(** What [join] puts before a name without separator. *)
Lemma join_no_sep (a b : string) :
  rfind b sep = -1 →
  ∃ pre, dir_prefix pre ∧
    ∀ b', rfind b' sep = -1 → join a b' = pre +:+ b'.
Proof.
  intros _. unfold join.
  destruct (String.eqb a "" || endswith_char sep a) eqn:E.
  - exists a. split.
    + apply orb_true_iff in E as [E%String.eqb_eq | E]; [by left | by right].
    + intros b' Hb'. by rewrite (no_sep_startswith b' Hb').
  - exists (a +:+ "/"). split.
    + right. apply endswith_snoc.
    + intros b' Hb'. rewrite (no_sep_startswith b' Hb').
      by rewrite app_assoc_str.
Qed.

(** Replacing the extension commutes with joining the directory:
    [join(dir, splitext(name)[0] + ext) == splitext(join(dir, name))[0] + ext]
    for the base name of any path. *)
Lemma join_splitext_basename (dir input ext : string) :
  rfind ext sep = -1 →
  join dir (fst (splitext (basename input)) +:+ ext)
  = fst (splitext (join dir (basename input))) +:+ ext.
Proof.
  intros Hext. pose proof (rfind_basename input) as Hb.
  destruct (join_no_sep dir (basename input) Hb) as (pre & Hpre & Hjoin).
  rewrite (Hjoin (basename input) Hb), (splitext_app _ _ Hpre Hb). simpl.
  rewrite Hjoin, app_assoc_str; [done|].
  rewrite (rfind_app_absent _ _ _ Hext). by apply splitext_root_no_sep.
Qed.

End PathFacts.

(** * Facts about the core, for any backend *)

Section CoreFacts.
Context `{Pillow}.

(** ** Colour-mode normalisation *)

Lemma split_rgba_alpha (img : Image) :
  im_mode img = "RGBA" → split img !! 3%nat = Some (band_image img 3).
Proof. intros Hm. unfold split. by rewrite Hm. Qed.

Lemma normalize_rgba_webp (tf : string) (img : Image) (w : World) :
  im_mode img = "RGBA" → PyStr.lower tf = "webp" →
  normalize_mode tf img w = (w, inr img).
Proof. intros Hm Htf. unfold normalize_mode. by rewrite Hm, Htf. Qed.

Lemma normalize_rgba_other (tf : string) (img : Image) (w : World) :
  im_mode img = "RGBA" → PyStr.lower tf ≠ "webp" →
  normalize_mode tf img w
  = (w, inr (paste (Image_new "RGB" (im_size img) white) img (band_image img 3))).
Proof.
  intros Hm Htf%String.eqb_neq. unfold normalize_mode, py_index.
  rewrite (split_rgba_alpha img Hm), Hm, Htf. reflexivity.
Qed.

Lemma normalize_la_p (tf : string) (img : Image) (w : World) :
  im_mode img = "LA" ∨ im_mode img = "P" →
  normalize_mode tf img w = (w, inr (convert img "RGB")).
Proof.
  intros [Hm | Hm]; unfold normalize_mode; rewrite Hm; simpl;
    by rewrite andb_false_r.
Qed.

Lemma normalize_rgb (tf : string) (img : Image) (w : World) :
  im_mode img = "RGB" → normalize_mode tf img w = (w, inr img).
Proof. intros Hm. unfold normalize_mode. by rewrite Hm. Qed.

Lemma normalize_other (tf : string) (img : Image) (w : World) :
  im_mode img ≠ "RGBA" → im_mode img ≠ "LA" → im_mode img ≠ "P" →
  im_mode img ≠ "RGB" →
  normalize_mode tf img w = (w, inr (convert img "RGB")).
Proof.
  intros H1%String.eqb_neq H2%String.eqb_neq H3%String.eqb_neq
    H4%String.eqb_neq.
  unfold normalize_mode. simpl. by rewrite H1, H2, H3, H4.
Qed.

(** Normalisation never raises and leaves the world alone. *)
Lemma normalize_mode_total (tf : string) (img : Image) (w : World) :
  ∃ img', normalize_mode tf img w = (w, inr img').
Proof.
  destruct (String.eqb_spec (im_mode img) "RGBA") as [Hm | H1].
  - destruct (String.eqb_spec (PyStr.lower tf) "webp") as [Htf | Htf].
    + eexists. by apply normalize_rgba_webp.
    + eexists. by apply normalize_rgba_other.
  - destruct (String.eqb_spec (im_mode img) "LA") as [Hm | H2];
      [eexists; apply normalize_la_p; by left|].
    destruct (String.eqb_spec (im_mode img) "P") as [Hm | H3];
      [eexists; apply normalize_la_p; by right|].
    destruct (String.eqb_spec (im_mode img) "RGB") as [Hm | H4];
      [eexists; by apply normalize_rgb|].
    eexists. by apply normalize_other.
Qed.

(** The EXIF of the normalised image: the source's when the image is kept,
    none for the white composite, and what a derived image still has after
    a mode conversion. *)
Lemma normalize_mode_exif (tf : string) (img img' : Image) (w w' : World) :
  normalize_mode tf img w = (w', inr img') →
  im_exif img'
  = if String.eqb (im_mode img) "RGB"
       || (String.eqb (im_mode img) "RGBA"
           && String.eqb (PyStr.lower tf) "webp")
    then im_exif img
    else if String.eqb (im_mode img) "RGBA" then ∅
    else carried_exif img.
Proof.
  destruct (String.eqb_spec (im_mode img) "RGBA") as [Hm | H1].
  - destruct (String.eqb_spec (PyStr.lower tf) "webp") as [Htf | Htf].
    + rewrite normalize_rgba_webp by done. intros [= _ <-]. by rewrite Hm.
    + rewrite normalize_rgba_other by done. intros [= _ <-]. by rewrite Hm.
  - rewrite andb_false_l, orb_false_r.
    destruct (String.eqb_spec (im_mode img) "RGB") as [Hm | H4];
      [rewrite normalize_rgb by done; by intros [= _ <-]|].
    destruct (String.eqb_spec (im_mode img) "LA") as [Hm | H2];
      [rewrite normalize_la_p by (by left); by intros [= _ <-]|].
    destruct (String.eqb_spec (im_mode img) "P") as [Hm | H3];
      [rewrite normalize_la_p by (by right); by intros [= _ <-]|].
    rewrite normalize_other by done. by intros [= _ <-].
Qed.

(** ** What reaches the encoder *)

(** The world after one [save]. *)
Lemma Image_save_world (img : Image) (path : string) (fmt : option string)
    (args : SaveArgs) (w : World) :
  Image_save img path fmt args w
  = ({| w_fs := fst (pil_save img path fmt args (w_fs w));
        w_saved := w_saved w ++ [mkSaveCall img path fmt args] |},
     snd (pil_save img path fmt args (w_fs w))).
Proof. unfold Image_save. by destruct (pil_save img path fmt args (w_fs w)). Qed.

(** Steps of a computation. *)
Lemma bind_ok {A B} (m : M A) (k : A → M B) (w w' : World) (a : A) :
  m w = (w', inr a) → bind m k w = k a w'.
Proof. intros Hm. unfold bind. by rewrite Hm. Qed.

Lemma bind_raises {A B} (m : M A) (k : A → M B) (w w' : World) (e : Exception) :
  m w = (w', inl e) → bind m k w = (w', inl e).
Proof. intros Hm. unfold bind. by rewrite Hm. Qed.

Lemma Image_open_file (path : string) (w : World) (f : File) :
  w_fs w !! path = Some f → Image_open path w = (w, f_image f).
Proof. intros Hf. unfold Image_open. by rewrite Hf. Qed.

Lemma getsize_file (path : string) (w : World) (f : File) :
  w_fs w !! path = Some f → getsize path w = (w, inr (f_size f)).
Proof. intros Hf. unfold getsize. by rewrite Hf. Qed.

Lemma getsize_world {path : string} {w w' : World} {r : Result Z} :
  getsize path w = (w', r) → w' = w.
Proof. unfold getsize. destruct (w_fs w !! path); by intros [= <- _]. Qed.

Lemma py_truediv_world {a b : Z} {w w' : World} {r : Result Q} :
  py_truediv a b w = (w', r) → w' = w.
Proof. unfold py_truediv, raise, ret. destruct (b =? 0); by intros [= <- _]. Qed.

(** What [convert_image] does once the input is open and normalised: the
    encoding step, then the sizes. *)
Lemma convert_image_try_opened (input_path output_path tf : string) (q : Z)
    (rm : bool) (w : World) (f : File) (img img' : Image) :
  w_fs w !! input_path = Some f → f_image f = inr img →
  normalize_mode tf img w = (w, inr img') →
  convert_image_try input_path output_path tf q rm w
  = bind (convert_encode img' output_path tf (convert_save_kwargs tf q rm img'))
      (λ step,
         match step with
         | inl early => ret early
         | inr output_path =>
             let* converted_size := getsize output_path in
             let* ratio := py_truediv (f_size f - converted_size) (f_size f) in
             let size_reduction := (ratio * inject_Z 100)%Q in
             let original_mb := (inject_Z (f_size f) / MB)%Q in
             let converted_mb := (inject_Z converted_size / MB)%Q in
             let message :=
               "Converted to " +:+ PyStr.upper tf +:+ ": "
                 +:+ pil_fixed 2 original_mb +:+ " MB → "
                 +:+ pil_fixed 2 converted_mb +:+ " MB ("
                 +:+ pil_fixed 1 size_reduction +:+ "% reduction)" in
             ret (true, message, size_reduction)
         end) w.
Proof.
  intros Hf Himg Hn. unfold convert_image_try.
  rewrite (bind_ok _ _ w w img) by (by rewrite (Image_open_file _ _ _ Hf), Himg).
  rewrite (bind_ok _ _ w w (f_size f)) by (by apply getsize_file).
  by rewrite (bind_ok _ _ w w img') by done.
Qed.

(** The encoding step. *)
Lemma convert_encode_webp (img : Image) (output_path tf : string)
    (kw : SaveArgs) (w : World) :
  PyStr.lower tf = "webp" →
  let p := fst (OsPath.splitext output_path) +:+ ".webp" in
  convert_encode img output_path tf kw w
  = ({| w_fs := fst (pil_save img p (Some "WEBP") kw (w_fs w));
        w_saved := w_saved w ++ [mkSaveCall img p (Some "WEBP") kw] |},
     match snd (pil_save img p (Some "WEBP") kw (w_fs w)) with
     | inl e => inl e
     | inr _ => inr (inr p)
     end).
Proof.
  intros Htf p. unfold convert_encode. rewrite Htf. simpl.
  unfold bind. rewrite Image_save_world. fold p.
  by destruct (snd (pil_save img p (Some "WEBP") kw (w_fs w))).
Qed.

Lemma convert_encode_avif (img : Image) (output_path tf : string)
    (kw : SaveArgs) (w : World) :
  PyStr.lower tf = "avif" →
  let p := fst (OsPath.splitext output_path) +:+ ".avif" in
  convert_encode img output_path tf kw w
  = ({| w_fs := fst (pil_save img p (Some "AVIF") kw (w_fs w));
        w_saved := w_saved w ++ [mkSaveCall img p (Some "AVIF") kw] |},
     match snd (pil_save img p (Some "AVIF") kw (w_fs w)) with
     | inl e =>
         if looks_like_missing_plugin e
         then inr (inl (false, avif_plugin_message, 0%Q))
         else inl e
     | inr _ => inr (inr p)
     end).
Proof.
  intros Htf p. unfold convert_encode. rewrite Htf. simpl.
  unfold try_except, bind. rewrite Image_save_world. fold p.
  destruct (snd (pil_save img p (Some "AVIF") kw (w_fs w))) as [e|]; [|done].
  by destruct (looks_like_missing_plugin e).
Qed.

Lemma convert_encode_unsupported (img : Image) (output_path tf : string)
    (kw : SaveArgs) (w : World) :
  PyStr.lower tf ≠ "webp" → PyStr.lower tf ≠ "avif" →
  convert_encode img output_path tf kw w
  = (w, inr (inl (false, "Unsupported target format: " +:+ tf, 0%Q))).
Proof.
  intros H1%String.eqb_neq H2%String.eqb_neq. unfold convert_encode.
  by rewrite H1, H2.
Qed.

(** The steps after the encoder read sizes only. *)
Lemma convert_image_world (input_path output_path tf : string) (q : Z)
    (rm : bool) (w : World) (f : File) (img img' : Image) :
  w_fs w !! input_path = Some f → f_image f = inr img →
  normalize_mode tf img w = (w, inr img') →
  fst (convert_image input_path output_path tf q rm w)
  = fst (convert_encode img' output_path tf
           (convert_save_kwargs tf q rm img') w).
Proof.
  intros Hf Himg Hn. unfold convert_image, run_caught.
  rewrite (convert_image_try_opened _ _ _ _ _ _ _ _ _ Hf Himg Hn).
  unfold bind.
  destruct (convert_encode _ _ _ _ w) as [w1 [e | [early | p]]]; try done.
  simpl. destruct (getsize p w1) as [w2 [e | n]] eqn:Hg;
    pose proof (getsize_world Hg) as ->; [done|].
  destruct (py_truediv _ _ w1) as [w3 [e | r]] eqn:Hd;
    pose proof (py_truediv_world Hd) as ->; done.
Qed.

(** [convert_image] either leaves the world as it found it, or has made
    exactly one [save] of the normalised image to the derived path. *)
Lemma convert_image_saved (input_path output_path tf : string) (q : Z)
    (rm : bool) (w : World) :
  fst (convert_image input_path output_path tf q rm w) = w
  ∨ ∃ f img img' p fmt,
      w_fs w !! input_path = Some f ∧ f_image f = inr img
      ∧ normalize_mode tf img w = (w, inr img')
      ∧ convert_output_path output_path tf = Some p
      ∧ fst (convert_image input_path output_path tf q rm w)
        = {| w_fs := fst (pil_save img' p (Some fmt)
                            (convert_save_kwargs tf q rm img') (w_fs w));
             w_saved := w_saved w
                          ++ [mkSaveCall img' p (Some fmt)
                                (convert_save_kwargs tf q rm img')] |}.
Proof.
  destruct (w_fs w !! input_path) as [f|] eqn:Hf.
  2: { left. unfold convert_image, run_caught, convert_image_try, bind,
         Image_open. by rewrite Hf. }
  destruct (f_image f) as [e | img] eqn:Himg.
  { left. unfold convert_image, run_caught, convert_image_try, bind,
      Image_open. by rewrite Hf, Himg. }
  destruct (normalize_mode_total tf img w) as [img' Hn].
  rewrite (convert_image_world _ _ _ _ _ _ _ _ _ Hf Himg Hn).
  unfold convert_output_path.
  destruct (String.eqb_spec (PyStr.lower tf) "webp") as [Hwebp | Hwebp].
  - right. exists f, img, img', (fst (OsPath.splitext output_path) +:+ ".webp"), "WEBP".
    repeat split; try done. by rewrite convert_encode_webp.
  - destruct (String.eqb_spec (PyStr.lower tf) "avif") as [Havif | Havif].
    + right. exists f, img, img', (fst (OsPath.splitext output_path) +:+ ".avif"), "AVIF".
      repeat split; try done. by rewrite convert_encode_avif.
    + left. by rewrite convert_encode_unsupported.
Qed.

(** An early return of the encoding step is a failure. *)
Lemma convert_encode_early (img : Image) (output_path tf : string)
    (kw : SaveArgs) (w w1 : World) (early : ProcessingResult) :
  convert_encode img output_path tf kw w = (w1, inr (inl early)) →
  fst (fst early) = false.
Proof.
  destruct (String.eqb_spec (PyStr.lower tf) "webp") as [Hwebp | Hwebp].
  { rewrite convert_encode_webp by done. intros [= _ He].
    by destruct (snd (pil_save _ _ _ _ _)). }
  destruct (String.eqb_spec (PyStr.lower tf) "avif") as [Havif | Havif].
  - rewrite convert_encode_avif by done. intros [= _ He].
    destruct (snd (pil_save _ _ _ _ _)) as [e|]; [|done].
    destruct (looks_like_missing_plugin e); by simplify_eq.
  - rewrite convert_encode_unsupported by done. by intros [= _ <-].
Qed.

(** When the encoding step goes on, it has written to the derived path and
    the encoder has reported no error. *)
Lemma convert_encode_continues (img : Image) (output_path tf : string)
    (kw : SaveArgs) (w w1 : World) (p : string) :
  convert_encode img output_path tf kw w = (w1, inr (inr p)) →
  convert_output_path output_path tf = Some p
  ∧ ∃ fmt, w1 = {| w_fs := fst (pil_save img p (Some fmt) kw (w_fs w));
                   w_saved := w_saved w ++ [mkSaveCall img p (Some fmt) kw] |}
           ∧ snd (pil_save img p (Some fmt) kw (w_fs w)) = inr tt.
Proof.
  unfold convert_output_path.
  destruct (String.eqb_spec (PyStr.lower tf) "webp") as [Hwebp | Hwebp].
  { rewrite convert_encode_webp by done. intros [= <- He].
    destruct (snd (pil_save _ _ _ _ _)) as [e | []] eqn:Hs; [done|].
    simplify_eq. split; [done|]. by exists "WEBP". }
  destruct (String.eqb_spec (PyStr.lower tf) "avif") as [Havif | Havif].
  - rewrite convert_encode_avif by done. intros [= <- He].
    destruct (snd (pil_save _ _ _ _ _)) as [e | []] eqn:Hs.
    + by destruct (looks_like_missing_plugin e).
    + simplify_eq. split; [done|]. by exists "AVIF".
  - by rewrite convert_encode_unsupported by done.
Qed.

(** ** Results of [convert_image] *)

(** A successful conversion reports the reduction computed from the size
    of the input and the size of the file at the derived path. *)
Lemma convert_image_success (input_path output_path tf : string) (q : Z)
    (rm : bool) (w w' : World) (msg : string) (r : Q) :
  convert_image input_path output_path tf q rm w = (w', (true, msg, r)) →
  ∃ f_in p f_out,
    w_fs w !! input_path = Some f_in
    ∧ convert_output_path output_path tf = Some p
    ∧ w_fs w' !! p = Some f_out
    ∧ f_size f_in ≠ 0
    ∧ r = (inject_Z (f_size f_in - f_size f_out) / inject_Z (f_size f_in)
           * inject_Z 100)%Q.
Proof.
  destruct (w_fs w !! input_path) as [f|] eqn:Hf.
  2: { unfold convert_image, run_caught, convert_image_try, bind, Image_open.
       by rewrite Hf. }
  destruct (f_image f) as [e | img] eqn:Himg.
  { unfold convert_image, run_caught, convert_image_try, bind, Image_open.
    by rewrite Hf, Himg. }
  destruct (normalize_mode_total tf img w) as [img' Hn].
  unfold convert_image, run_caught.
  rewrite (convert_image_try_opened _ _ _ _ _ _ _ _ _ Hf Himg Hn).
  unfold bind.
  destruct (convert_encode _ _ _ _ w) as [w1 [e | [early | p]]] eqn:He;
    [done | |].
  { apply convert_encode_early in He. unfold ret. intros [= _ ->]. done. }
  apply convert_encode_continues in He as [Hp _].
  unfold getsize. destruct (w_fs w1 !! p) as [f_out|] eqn:Hout; [|done].
  unfold py_truediv. destruct (f_size f =? 0) eqn:Hz; [done|].
  unfold ret. intros [= <- _ <-]. exists f, p, f_out.
  apply Z.eqb_neq in Hz. done.
Qed.

(** The result when the AVIF encoder raises. *)
Lemma convert_image_avif_raises (input_path output_path tf : string) (q : Z)
    (rm : bool) (w : World) (f : File) (img img' : Image) (e : Exception) :
  PyStr.lower tf = "avif" →
  w_fs w !! input_path = Some f → f_image f = inr img →
  normalize_mode tf img w = (w, inr img') →
  snd (pil_save img' (fst (OsPath.splitext output_path) +:+ ".avif")
         (Some "AVIF") (convert_save_kwargs tf q rm img') (w_fs w)) = inl e →
  snd (convert_image input_path output_path tf q rm w)
  = if looks_like_missing_plugin e
    then (false, avif_plugin_message, 0%Q)
    else (false, "Error: " +:+ exc_str e, 0%Q).
Proof.
  intros Htf Hf Himg Hn Hs. unfold convert_image, run_caught.
  rewrite (convert_image_try_opened _ _ _ _ _ _ _ _ _ Hf Himg Hn).
  unfold bind. rewrite convert_encode_avif by done. cbv zeta. rewrite Hs.
  by destruct (looks_like_missing_plugin e).
Qed.

(** ** [compress_image] *)

(** The image and the arguments [compress_image] hands to [save]. *)
Lemma compress_image_try_opened (input_path output_path : string) (q : Z)
    (rm : bool) (w : World) (f : File) (img : Image) :
  w_fs w !! input_path = Some f → f_image f = inr img →
  let img' := if is_jpeg_rgba (im_format img) img then convert img "RGB" else img in
  let kw := {| sa_quality := Some q; sa_optimize := Some true;
               sa_method := None;
               sa_exif := if rm then None
                          else if exif_truthy (im_exif img)
                               then Some (im_exif img) else None |} in
  let w1 := {| w_fs := fst (pil_save img' output_path (im_format img) kw (w_fs w));
               w_saved := w_saved w
                            ++ [mkSaveCall img' output_path (im_format img) kw] |} in
  compress_image input_path output_path q rm w
  = match snd (pil_save img' output_path (im_format img) kw (w_fs w)) with
    | inl e => (w1, (false, "Error: " +:+ exc_str e, 0%Q))
    | inr _ =>
        match w_fs w1 !! output_path with
        | None =>
            (w1, (false,
                  "Error: " +:+ "[Errno 2] No such file or directory: '"
                    +:+ output_path +:+ "'", 0%Q))
        | Some f_out =>
            if f_size f =? 0 then (w1, (false, "Error: division by zero", 0%Q))
            else
              let r := (inject_Z (f_size f - f_size f_out) / inject_Z (f_size f)
                        * inject_Z 100)%Q in
              (w1, (true,
                    "Compressed: "
                      +:+ pil_fixed 2 (inject_Z (f_size f) / MB)%Q +:+ " MB → "
                      +:+ pil_fixed 2 (inject_Z (f_size f_out) / MB)%Q +:+ " MB ("
                      +:+ pil_fixed 1 r +:+ "% reduction)", r))
        end
    end.
Proof.
  intros Hf Himg img' kw w1. unfold compress_image, run_caught, compress_image_try.
  rewrite (bind_ok _ _ w w img) by (by rewrite (Image_open_file _ _ _ Hf), Himg).
  rewrite (bind_ok _ _ w w (f_size f)) by (by apply getsize_file).
  unfold getexif. subst w1 kw img'.
  destruct rm; [|destruct (exif_truthy (im_exif img))]; cbv zeta;
    unfold bind at 1; rewrite Image_save_world; simpl sa_quality;
    simpl sa_optimize; simpl sa_method;
    (match goal with
     | |- context [snd (pil_save ?i ?p ?fm ?k ?fs)] =>
         destruct (snd (pil_save i p fm k fs)) as [e | []]; [done|]
     end);
    unfold bind, getsize; simpl w_fs;
    (match goal with
     | |- context [fst (pil_save ?i ?p ?fm ?k ?fs) !! ?o] =>
         destruct (fst (pil_save i p fm k fs) !! o) as [f_out|]; [|done]
     end);
    unfold py_truediv; by destruct (f_size f =? 0).
Qed.

Lemma compress_image_unopened (input_path output_path : string) (q : Z)
    (rm : bool) (w : World) :
  (∀ f img, w_fs w !! input_path = Some f → f_image f ≠ inr img) →
  fst (compress_image input_path output_path q rm w) = w
  ∧ fst (fst (snd (compress_image input_path output_path q rm w))) = false.
Proof.
  intros Hno. unfold compress_image, run_caught, compress_image_try, bind,
    Image_open.
  destruct (w_fs w !! input_path) as [f|] eqn:Hf; [|done].
  destruct (f_image f) as [e | img] eqn:Himg; [done|]. by destruct (Hno f img).
Qed.

Lemma compress_image_world (input_path output_path : string) (q : Z)
    (rm : bool) (w : World) (f : File) (img : Image) :
  w_fs w !! input_path = Some f → f_image f = inr img →
  ∃ call,
    fst (compress_image input_path output_path q rm w)
    = {| w_fs := fst (pil_save (sc_image call) (sc_path call) (sc_format call)
                        (sc_args call) (w_fs w));
         w_saved := w_saved w ++ [call] |}
    ∧ sc_path call = output_path
    ∧ sc_format call = im_format img
    ∧ sa_quality (sc_args call) = Some q.
Proof.
  intros Hf Himg. rewrite (compress_image_try_opened _ _ _ _ _ _ _ Hf Himg).
  cbv zeta.
  match goal with
  | |- context [mkSaveCall ?i ?p ?fm ?k] => exists (mkSaveCall i p fm k)
  end.
  split; [|done]. simpl. repeat case_match; done.
Qed.

Lemma compress_image_saved (input_path output_path : string) (q : Z)
    (rm : bool) (w : World) :
  fst (compress_image input_path output_path q rm w) = w
  ∨ ∃ call,
      fst (compress_image input_path output_path q rm w)
      = {| w_fs := fst (pil_save (sc_image call) (sc_path call)
                          (sc_format call) (sc_args call) (w_fs w));
           w_saved := w_saved w ++ [call] |}
      ∧ sc_path call = output_path
      ∧ sa_quality (sc_args call) = Some q.
Proof.
  destruct (w_fs w !! input_path) as [f|] eqn:Hf.
  2: { left. apply compress_image_unopened. intros f img Hf'. congruence. }
  destruct (f_image f) as [e | img] eqn:Himg.
  { left. apply compress_image_unopened. intros f' img Hf'. congruence. }
  right. destruct (compress_image_world input_path output_path q rm w f img Hf Himg)
    as (call & Hw & Hp & _ & Hq). by exists call.
Qed.

Lemma compress_image_success (input_path output_path : string) (q : Z)
    (rm : bool) (w w' : World) (msg : string) (r : Q) :
  compress_image input_path output_path q rm w = (w', (true, msg, r)) →
  ∃ f_in f_out,
    w_fs w !! input_path = Some f_in
    ∧ w_fs w' !! output_path = Some f_out
    ∧ f_size f_in ≠ 0
    ∧ r = (inject_Z (f_size f_in - f_size f_out) / inject_Z (f_size f_in)
           * inject_Z 100)%Q.
Proof.
  destruct (w_fs w !! input_path) as [f|] eqn:Hf.
  2: { intros Hr. destruct (compress_image_unopened input_path output_path q rm w)
         as [_ Hfalse]; [intros; congruence|]. by rewrite Hr in Hfalse. }
  destruct (f_image f) as [e | img] eqn:Himg.
  { intros Hr. destruct (compress_image_unopened input_path output_path q rm w)
      as [_ Hfalse]; [intros; congruence|]. by rewrite Hr in Hfalse. }
  rewrite (compress_image_try_opened _ _ _ _ _ _ _ Hf Himg). cbv zeta.
  destruct (snd (pil_save _ _ _ _ _)) as [e | []]; [done|].
  match goal with
  | |- context [w_fs ?w1 !! output_path] =>
      destruct (w_fs w1 !! output_path) as [f_out|] eqn:Hout; [|done]
  end.
  destruct (f_size f =? 0) eqn:Hz; [done|]. apply Z.eqb_neq in Hz.
  intros [= <- _ <-]. by exists f, f_out.
Qed.

(** ** Inputs that cannot be opened, targets that are not supported *)

Lemma convert_image_unopened (input_path output_path tf : string) (q : Z)
    (rm : bool) (w : World) :
  (∀ f img, w_fs w !! input_path = Some f → f_image f ≠ inr img) →
  fst (convert_image input_path output_path tf q rm w) = w
  ∧ fst (fst (snd (convert_image input_path output_path tf q rm w))) = false.
Proof.
  intros Hno. unfold convert_image, run_caught, convert_image_try, bind,
    Image_open.
  destruct (w_fs w !! input_path) as [f|] eqn:Hf; [|done].
  destruct (f_image f) as [e | img] eqn:Himg; [done|]. by destruct (Hno f img).
Qed.

Lemma convert_image_unsupported (input_path output_path tf : string) (q : Z)
    (rm : bool) (w : World) :
  PyStr.lower tf ≠ "webp" → PyStr.lower tf ≠ "avif" →
  fst (convert_image input_path output_path tf q rm w) = w
  ∧ fst (fst (snd (convert_image input_path output_path tf q rm w))) = false.
Proof.
  intros H1 H2.
  destruct (w_fs w !! input_path) as [f|] eqn:Hf;
    [|apply convert_image_unopened; intros; congruence].
  destruct (f_image f) as [e | img] eqn:Himg;
    [apply convert_image_unopened; intros; congruence|].
  destruct (normalize_mode_total tf img w) as [img' Hn].
  unfold convert_image, run_caught.
  rewrite (convert_image_try_opened _ _ _ _ _ _ _ _ _ Hf Himg Hn).
  unfold bind. by rewrite convert_encode_unsupported.
Qed.

(** ** [check_conflicts] *)

Lemma check_conflicts_outputs (w : World) (image_paths : list string)
    (output_folder output_format : string) :
  Forall (λ c, c_output c
               = predicted_output_path output_folder output_format (c_input c))
    (check_conflicts w image_paths output_folder output_format).
Proof.
  induction image_paths as [|input_path rest IH]; simpl; [constructor|].
  destruct (exists_ _ _); [|done].
  destruct (existing_info _ _). by constructor.
Qed.

(** ** [strip_metadata] and [has_exif_data] *)

Lemma putdata_fresh (mode : string) (size : Z * Z) (color : Pixel)
    (data : list Pixel) :
  length data = Z.to_nat (fst size * snd size) →
  im_data (putdata (Image_new mode size color) data) = data.
Proof.
  intros Hlen. unfold putdata, Image_new. simpl.
  rewrite length_replicate, drop_ge by (rewrite length_replicate; lia).
  rewrite app_nil_r. apply take_ge. lia.
Qed.

Lemma strip_metadata_opened (image_path output_path : string) (w : World)
    (f : File) (img : Image) :
  w_fs w !! image_path = Some f → f_image f = inr img →
  let clean :=
    putdata (Image_new (im_mode img) (im_size img) (zero_pixel (im_mode img)))
      (im_data img) in
  strip_metadata image_path output_path w
  = ({| w_fs := fst (pil_save clean output_path (im_format img) no_save_args
                       (w_fs w));
        w_saved := w_saved w
                     ++ [mkSaveCall clean output_path (im_format img)
                           no_save_args] |},
     match snd (pil_save clean output_path (im_format img) no_save_args
                  (w_fs w)) with
     | inl e => (false, "Error removing metadata: " +:+ exc_str e)
     | inr _ => (true, "Metadata removed successfully")
     end).
Proof.
  intros Hf Himg clean. unfold strip_metadata, run_caught.
  rewrite (bind_ok _ _ w w img) by (by rewrite (Image_open_file _ _ _ Hf), Himg).
  unfold getdata. fold clean. unfold bind. rewrite Image_save_world.
  by destruct (snd (pil_save _ _ _ _ _)) as [e | []].
Qed.

Lemma strip_metadata_unopened (image_path output_path : string) (w : World) :
  (∀ f img, w_fs w !! image_path = Some f → f_image f ≠ inr img) →
  fst (snd (strip_metadata image_path output_path w)) = false.
Proof.
  intros Hno. unfold strip_metadata, run_caught, bind, Image_open.
  destruct (w_fs w !! image_path) as [f|] eqn:Hf; [|done].
  destruct (f_image f) as [e | img] eqn:Himg; [done|]. by destruct (Hno f img).
Qed.

Lemma has_exif_data_empty (path : string) (w : World) :
  (∀ f img, w_fs w !! path = Some f → f_image f = inr img → im_exif img = ∅) →
  has_exif_data path w = (w, false).
Proof.
  intros Hno. unfold has_exif_data, run_caught, bind, Image_open, ret, getexif.
  destruct (w_fs w !! path) as [f|] eqn:Hf; [|done].
  destruct (f_image f) as [e | img] eqn:Himg; [done|].
  by rewrite (Hno f img eq_refl Himg).
Qed.

End CoreFacts.

(** * The quality value *)

Section QualityFacts.

Lemma clamp_max_min (q : Z) : Z.max 1 (Z.min 100 q) = clamp q 1 100.
Proof.
  unfold clamp. destruct (q <? 1) eqn:E1; [apply Z.ltb_lt in E1; lia|].
  apply Z.ltb_ge in E1.
  destruct (100 <? q) eqn:E2; [apply Z.ltb_lt in E2 | apply Z.ltb_ge in E2]; lia.
Qed.

Lemma clamp_range (q : Z) : 1 ≤ clamp q 1 100 ≤ 100.
Proof. rewrite <- clamp_max_min. lia. Qed.

Lemma Qtrunc_toward_zero (q : Q) : Qtrunc q = toward_zero q.
Proof.
  destruct q as [n d]. unfold Qtrunc, toward_zero, Qle_bool, Qceiling, Qfloor.
  simpl. rewrite Z.mul_1_r. change (0 * Z.pos d) with 0.
  destruct (0 <=? n) eqn:E.
  - apply Z.leb_le in E. apply Z.quot_div_nonneg; lia.
  - apply Z.leb_gt in E.
    rewrite <- (Z.opp_involutive n) at 1.
    rewrite Z.quot_opp_l by lia. f_equal. apply Z.quot_div_nonneg; lia.
Qed.

Lemma Qtrunc_inject_Z (z : Z) : Qtrunc (inject_Z z) = z.
Proof. unfold Qtrunc. simpl. apply Z.quot_1_r. Qed.

(** C8 (as amended): for every integer and every finite float,
    [validate_quality] returns an integer in [1,100], namely the clamp of
    the input rounded toward zero; an integer already in [1,100] comes back
    unchanged; [validate_quality(0.9)] is 1 and [validate_quality(100.9)]
    is 100. *)
Theorem validate_quality_finite :
  (∀ (x : PyNumber) (v : Q),
     finite_value x = Some v →
     ∃ r, validate_quality x = inr r
          ∧ 1 ≤ r ≤ 100
          ∧ r = clamp (toward_zero v) 1 100
          ∧ ∀ z, x = PyInt z → 1 ≤ z ≤ 100 → r = z)
  ∧ validate_quality (PyFloat (9 # 10)) = inr 1
  ∧ validate_quality (PyFloat (1009 # 10)) = inr 100.
Proof.
  split; [|split; reflexivity].
  intros x v Hv. destruct x as [z | q | b |]; simpl in Hv; simplify_eq.
  - exists (clamp z 1 100). unfold validate_quality. simpl.
    rewrite clamp_max_min, <- Qtrunc_toward_zero, Qtrunc_inject_Z.
    repeat split; try apply clamp_range.
    intros z' [= <-] Hz. unfold clamp.
    destruct (z <? 1) eqn:E1; [apply Z.ltb_lt in E1; lia|].
    destruct (100 <? z) eqn:E2; [apply Z.ltb_lt in E2; lia | done].
  - exists (clamp (Qtrunc v) 1 100). unfold validate_quality. simpl.
    rewrite clamp_max_min, <- Qtrunc_toward_zero.
    repeat split; try apply clamp_range. by intros z' [=].
Qed.

Lemma validate_quality_finite_witness :
  ∃ r, validate_quality (PyFloat (857 # 10)) = inr r ∧ r = 85.
Proof.
  destruct (proj1 validate_quality_finite (PyFloat (857 # 10)) (857 # 10)
              eq_refl) as (r & Hr & _ & Hc & _).
  exists r. split; [exact Hr | rewrite Hc; reflexivity].
Defined.

(** C8 (as stated) fails: NaN is a numeric input for which [validate_quality]
    returns no integer. *)
Lemma validate_quality_nan_raises :
  ¬ (∀ x : PyNumber, ∃ r, validate_quality x = inr r ∧ 1 ≤ r ≤ 100).
Proof. intros Hall. destruct (Hall PyNaN) as (r & Hr & _). discriminate Hr. Qed.

End QualityFacts.

(** * The properties of the specification, for any backend *)

Section Properties.
Context `{Pillow}.

(** C1 (as amended): in [convert_image], an RGBA source is handed to the
    encoder as it is when the target is WebP, and is pasted onto an opaque
    white RGB background with its own alpha band as the mask for any other
    target; an LA or P source is converted to RGB by a plain mode
    conversion, whatever the target; an RGB source is left alone; every
    other mode is converted to RGB.  What [convert_image] hands to the
    encoder is that normalised image. *)
Theorem convert_color_mode_policy (tf : string) (img : Image) (w : World) :
  (im_mode img = "RGBA" → PyStr.lower tf = "webp" →
   normalize_mode tf img w = (w, inr img))
  ∧ (im_mode img = "RGBA" → PyStr.lower tf ≠ "webp" →
     normalize_mode tf img w
     = (w, inr (paste (Image_new "RGB" (im_size img) white) img
                  (band_image img 3))))
  ∧ (im_mode img = "LA" ∨ im_mode img = "P" →
     normalize_mode tf img w = (w, inr (convert img "RGB")))
  ∧ (im_mode img = "RGB" → normalize_mode tf img w = (w, inr img))
  ∧ (im_mode img ≠ "RGBA" → im_mode img ≠ "LA" → im_mode img ≠ "P" →
     im_mode img ≠ "RGB" →
     normalize_mode tf img w = (w, inr (convert img "RGB")))
  ∧ ∀ input_path output_path q rm f,
      w_fs w !! input_path = Some f → f_image f = inr img →
      fst (convert_image input_path output_path tf q rm w) = w
      ∨ ∃ img' p fmt,
          normalize_mode tf img w = (w, inr img')
          ∧ w_saved (fst (convert_image input_path output_path tf q rm w))
            = w_saved w
                ++ [mkSaveCall img' p (Some fmt)
                      (convert_save_kwargs tf q rm img')].
Proof.
  split; [apply normalize_rgba_webp|].
  split; [apply normalize_rgba_other|].
  split; [apply normalize_la_p|].
  split; [apply normalize_rgb|].
  split; [apply normalize_other|].
  intros input_path output_path q rm f Hf Himg.
  destruct (convert_image_saved input_path output_path tf q rm w)
    as [Hw | (f' & img0 & img' & p & fmt & Hf' & Himg' & Hn & _ & Hw)];
    [by left|].
  right. exists img', p, fmt. rewrite Hw. simpl.
  rewrite Hf in Hf'. injection Hf' as <-. rewrite Himg in Himg'.
  injection Himg' as <-. done.
Qed.

(** C2 (as amended): [compress_image] and [convert_image] hand the quality
    they are given to the encoder unchanged; [validate_quality] is the
    function that corrects an integer to [clamp(quality, 1, 100)], and it
    never rejects one. *)
Theorem quality_reaches_encoder_unchanged (input_path output_path tf : string)
    (q : Z) (rm : bool) (w : World) :
  (∃ new,
     w_saved (fst (compress_image input_path output_path q rm w))
     = w_saved w ++ new
     ∧ Forall (λ c, sa_quality (sc_args c) = Some q) new)
  ∧ (∃ new,
       w_saved (fst (convert_image input_path output_path tf q rm w))
       = w_saved w ++ new
       ∧ Forall (λ c, sa_quality (sc_args c) = Some q) new)
  ∧ validate_quality (PyInt q) = inr (clamp q 1 100).
Proof.
  split; [|split].
  - destruct (compress_image_saved input_path output_path q rm w)
      as [-> | (call & -> & _ & Hq)].
    + exists []. by rewrite app_nil_r.
    + exists [call]. split; [done|]. by repeat constructor.
  - destruct (convert_image_saved input_path output_path tf q rm w)
      as [-> | (f & img & img' & p & fmt & _ & _ & _ & _ & ->)].
    + exists []. by rewrite app_nil_r.
    + eexists [_]. split; [done|]. repeat constructor. simpl.
      unfold convert_save_kwargs. by repeat case_match.
  - unfold validate_quality. simpl. by rewrite clamp_max_min.
Qed.

(** C3: for a request whose output path is the output directory joined with
    the input's base name, the path [check_conflicts] predicts is the path
    written to: [convert_image] derives the same [.webp] / [.avif] path,
    [compress_image] writes to the request's path, and every conflict
    record carries the predicted path of its input. *)
Theorem predicted_path_is_written_path (output_folder input_path tf : string)
    (q : Z) (rm : bool) (w : World) (image_paths : list string)
    (output_format : string) :
  let requested := OsPath.join output_folder (OsPath.basename input_path) in
  (PyStr.lower tf = "webp" →
   convert_output_path requested tf
   = Some (predicted_output_path output_folder "WebP" input_path))
  ∧ (PyStr.lower tf = "avif" →
     convert_output_path requested tf
     = Some (predicted_output_path output_folder "AVIF" input_path))
  ∧ (∃ new,
       w_saved (fst (convert_image input_path requested tf q rm w))
       = w_saved w ++ new
       ∧ Forall (λ c, convert_output_path requested tf = Some (sc_path c)) new)
  ∧ (∃ new,
       w_saved (fst (compress_image input_path requested q rm w))
       = w_saved w ++ new
       ∧ Forall (λ c, sc_path c
                      = predicted_output_path output_folder "Keep Original"
                          input_path) new)
  ∧ Forall (λ c, c_output c
                 = predicted_output_path output_folder output_format
                     (c_input c))
      (check_conflicts w image_paths output_folder output_format).
Proof.
  intros requested. split; [|split; [|split; [|split]]].
  - intros Htf. unfold convert_output_path, predicted_output_path,
      output_filename. rewrite Htf. simpl. f_equal. symmetry.
    by apply join_splitext_basename.
  - intros Htf. unfold convert_output_path, predicted_output_path,
      output_filename. rewrite Htf. simpl. f_equal. symmetry.
    by apply join_splitext_basename.
  - destruct (convert_image_saved input_path requested tf q rm w)
      as [-> | (f & img & img' & p & fmt & _ & _ & _ & Hp & ->)].
    + exists []. by rewrite app_nil_r.
    + eexists [_]. split; [done|]. by repeat constructor.
  - destruct (compress_image_saved input_path requested q rm w)
      as [-> | (call & -> & Hp & _)].
    + exists []. by rewrite app_nil_r.
    + exists [call]. split; [done|]. by repeat constructor.
  - apply check_conflicts_outputs.
Qed.

(** C4: a successful [compress_image] or [convert_image] returns
    [(original_size - output_size) / original_size * 100], with the size of
    the input file as it was read and the size of the file found at the
    output path afterwards; the value is returned as computed, whatever its
    sign. *)
Theorem reduction_from_disk_sizes (input_path output_path tf : string)
    (q : Z) (rm : bool) (w w' : World) (msg : string) (r : Q) :
  (compress_image input_path output_path q rm w = (w', (true, msg, r)) →
   ∃ f_in f_out,
     w_fs w !! input_path = Some f_in
     ∧ w_fs w' !! output_path = Some f_out
     ∧ f_size f_in ≠ 0
     ∧ r = (inject_Z (f_size f_in - f_size f_out) / inject_Z (f_size f_in)
            * inject_Z 100)%Q)
  ∧ (convert_image input_path output_path tf q rm w = (w', (true, msg, r)) →
     ∃ f_in p f_out,
       w_fs w !! input_path = Some f_in
       ∧ convert_output_path output_path tf = Some p
       ∧ w_fs w' !! p = Some f_out
       ∧ f_size f_in ≠ 0
       ∧ r = (inject_Z (f_size f_in - f_size f_out) / inject_Z (f_size f_in)
              * inject_Z 100)%Q).
Proof.
  split; [apply compress_image_success | apply convert_image_success].
Qed.

(** C5: converting to AVIF where no AVIF encoder is installed returns a
    failure whose message names the missing plugin; the message differs
    from every generic ["Error: ..."] message and from the unsupported
    format message; no exception leaves [convert_image], and no file is
    touched. *)
Theorem avif_encoder_missing_reported (input_path output_path tf : string)
    (q : Z) (rm : bool) (w : World) (f : File) (img : Image) :
  avif_encoder_missing → PyStr.lower tf = "avif" →
  w_fs w !! input_path = Some f → f_image f = inr img →
  snd (convert_image input_path output_path tf q rm w)
  = (false, avif_plugin_message, 0%Q)
  ∧ w_fs (fst (convert_image input_path output_path tf q rm w)) = w_fs w
  ∧ (∀ e, avif_plugin_message ≠ "Error: " +:+ exc_str e)
  ∧ (∀ t, avif_plugin_message ≠ "Unsupported target format: " +:+ t).
Proof.
  intros Hmissing Htf Hf Himg.
  destruct (normalize_mode_total tf img w) as [img' Hn].
  split; [|split; [|split]].
  - rewrite (convert_image_avif_raises _ _ _ _ _ _ _ _ _
               (mkException "KeyError" "'AVIF'") Htf Hf Himg Hn);
      [done | by rewrite Hmissing].
  - rewrite (convert_image_world _ _ _ _ _ _ _ _ _ Hf Himg Hn).
    rewrite convert_encode_avif by done. simpl. by rewrite Hmissing.
  - intros e. unfold avif_plugin_message. by rewrite append_cons.
  - intros t. unfold avif_plugin_message. by rewrite append_cons.
Qed.

(** C9: when the AVIF [save] raises, a message that contains ["avif"] or
    ["cannot write mode"], in any letter case, gives the plugin-missing
    result, whatever raised it; a message that contains neither gives the
    generic ["Error: ..."] result. *)
Theorem avif_error_classification (input_path output_path tf : string)
    (q : Z) (rm : bool) (w : World) (f : File) (img img' : Image)
    (e : Exception) :
  PyStr.lower tf = "avif" →
  w_fs w !! input_path = Some f → f_image f = inr img →
  normalize_mode tf img w = (w, inr img') →
  snd (pil_save img' (fst (OsPath.splitext output_path) +:+ ".avif")
         (Some "AVIF") (convert_save_kwargs tf q rm img') (w_fs w)) = inl e →
  (PyStr.contains "avif" (PyStr.lower (exc_str e)) = true
   ∨ PyStr.contains "cannot write mode" (PyStr.lower (exc_str e)) = true →
   snd (convert_image input_path output_path tf q rm w)
   = (false, avif_plugin_message, 0%Q))
  ∧ (PyStr.contains "avif" (PyStr.lower (exc_str e)) = false →
     PyStr.contains "cannot write mode" (PyStr.lower (exc_str e)) = false →
     snd (convert_image input_path output_path tf q rm w)
     = (false, "Error: " +:+ exc_str e, 0%Q)).
Proof.
  intros Htf Hf Himg Hn Hs.
  rewrite (convert_image_avif_raises _ _ _ _ _ _ _ _ _ e Htf Hf Himg Hn Hs).
  unfold looks_like_missing_plugin. split.
  - intros [-> | ->]; [by rewrite orb_true_r | done].
  - by intros -> ->.
Qed.

(** C6 (as amended): when [strip_metadata] succeeds on an input whose
    format is one where a file written without EXIF shows none,
    [has_exif_data] on its output is false; the image handed to the encoder
    is a new one with the source's mode and size, the source's pixel data,
    no EXIF and no save arguments, written in the source's format to the
    output path. *)
Theorem strip_metadata_round_trip (image_path output_path : string)
    (w w' : World) (msg : string) (f : File) (img : Image) :
  w_fs w !! image_path = Some f → f_image f = inr img →
  shows_no_exif_unasked (im_format img) →
  strip_metadata image_path output_path w = (w', (true, msg)) →
  has_exif_data output_path w' = (w', false)
  ∧ ∃ call,
      w_saved w' = w_saved w ++ [call]
      ∧ sc_path call = output_path
      ∧ sc_format call = im_format img
      ∧ sc_args call = no_save_args
      ∧ im_mode (sc_image call) = im_mode img
      ∧ im_size (sc_image call) = im_size img
      ∧ im_exif (sc_image call) = ∅
      ∧ (length (im_data img)
         = Z.to_nat (fst (im_size img) * snd (im_size img)) →
         im_data (sc_image call) = im_data img).
Proof.
  intros Hf Himg Hcodec Hrun.
  rewrite (strip_metadata_opened _ _ _ _ _ Hf Himg) in Hrun. cbv zeta in Hrun.
  destruct (pil_save _ _ _ _ _) as [fs' [e | []]] eqn:Hs; [done|].
  simpl in Hrun. injection Hrun as <- _. split.
  - apply has_exif_data_empty. simpl. intros f' img' Hf' Himg'.
    by apply (Hcodec _ _ _ _ _ _ _ Hs eq_refl eq_refl Hf' Himg').
  - exists (mkSaveCall
              (putdata (Image_new (im_mode img) (im_size img)
                          (zero_pixel (im_mode img))) (im_data img))
              output_path (im_format img) no_save_args).
    repeat split; try done. simpl sc_image. apply putdata_fresh.
Qed.

(** C7 (as amended): [compress_image] and [convert_image] always return a
    result, after at most one [save]; the files afterwards are those the
    call found, or those that one [save] left: the core removes nothing.
    A call whose input cannot be opened, or whose target format is not
    supported, fails and leaves the world as it found it. *)
Theorem failure_leaves_encoder_state (input_path output_path tf : string)
    (q : Z) (rm : bool) (w : World) :
  (fst (compress_image input_path output_path q rm w) = w
   ∨ ∃ call,
       fst (compress_image input_path output_path q rm w)
       = {| w_fs := fst (pil_save (sc_image call) (sc_path call)
                           (sc_format call) (sc_args call) (w_fs w));
            w_saved := w_saved w ++ [call] |})
  ∧ (fst (convert_image input_path output_path tf q rm w) = w
     ∨ ∃ call,
         fst (convert_image input_path output_path tf q rm w)
         = {| w_fs := fst (pil_save (sc_image call) (sc_path call)
                             (sc_format call) (sc_args call) (w_fs w));
              w_saved := w_saved w ++ [call] |})
  ∧ ((∀ f img, w_fs w !! input_path = Some f → f_image f ≠ inr img) →
     compress_image input_path output_path q rm w
     = (w, (false, snd (fst (snd (compress_image input_path output_path q rm w))),
            snd (snd (compress_image input_path output_path q rm w))))
     ∧ fst (convert_image input_path output_path tf q rm w) = w
     ∧ fst (fst (snd (convert_image input_path output_path tf q rm w))) = false)
  ∧ (PyStr.lower tf ≠ "webp" → PyStr.lower tf ≠ "avif" →
     fst (convert_image input_path output_path tf q rm w) = w
     ∧ fst (fst (snd (convert_image input_path output_path tf q rm w))) = false).
Proof.
  split; [|split; [|split]].
  - destruct (compress_image_saved input_path output_path q rm w)
      as [Hw | (call & Hw & _)]; [by left | right; by exists call].
  - destruct (convert_image_saved input_path output_path tf q rm w)
      as [Hw | (f & img & img' & p & fmt & _ & _ & _ & _ & Hw)]; [by left|].
    right. by eexists (mkSaveCall _ _ _ _).
  - intros Hno.
    destruct (compress_image_unopened input_path output_path q rm w Hno)
      as [Hw Hfalse].
    destruct (convert_image_unopened input_path output_path tf q rm w Hno)
      as [Hw' Hfalse'].
    split; [|done].
    destruct (compress_image input_path output_path q rm w)
      as [w1 [[ok m] r]]. simpl in *. by subst.
  - apply convert_image_unsupported.
Qed.

(** C10 (as amended): [convert_image] reads the EXIF snapshot from the
    normalised image.  For a WebP target that image has the source's EXIF
    when the source is kept as it is (mode RGB or RGBA), and after a mode
    conversion it has what a derived image still has: the EXIF block held
    in [info], which the conversion copies, but not the tags read from a
    TIFF file's own directory.  With [remove_metadata] false that EXIF is
    handed to the encoder whenever there is some; nothing is handed over
    when [remove_metadata] is true. *)
Theorem webp_exif_from_normalized_image (input_path output_path tf : string)
    (q : Z) (rm : bool) (w : World) (f : File) (img : Image) :
  PyStr.lower tf = "webp" →
  w_fs w !! input_path = Some f → f_image f = inr img →
  ∃ img',
    normalize_mode tf img w = (w, inr img')
    ∧ im_exif img'
      = (if String.eqb (im_mode img) "RGB" || String.eqb (im_mode img) "RGBA"
         then im_exif img else carried_exif img)
    ∧ w_saved (fst (convert_image input_path output_path tf q rm w))
      = w_saved w
          ++ [mkSaveCall img' (fst (OsPath.splitext output_path) +:+ ".webp")
                (Some "WEBP") (convert_save_kwargs tf q rm img')]
    ∧ sa_exif (convert_save_kwargs tf q rm img')
      = if negb rm && exif_truthy (im_exif img')
        then Some (im_exif img') else None.
Proof.
  intros Htf Hf Himg.
  destruct (normalize_mode_total tf img w) as [img' Hn]. exists img'.
  split; [done|]. split; [|split].
  - rewrite (normalize_mode_exif _ _ _ _ _ Hn), Htf. simpl.
    rewrite andb_true_r.
    destruct (String.eqb (im_mode img) "RGB"); [done|]. simpl.
    by destruct (String.eqb (im_mode img) "RGBA").
  - rewrite (convert_image_world _ _ _ _ _ _ _ _ _ Hf Himg Hn).
    by rewrite convert_encode_webp.
  - unfold convert_save_kwargs, getexif. rewrite Htf.
    destruct rm; [done|]. simpl. by destruct (exif_truthy (im_exif img')).
Qed.

End Properties.

(** * The reference backend: runs on concrete files *)

Section ReferenceRuns.
Import Reference.

Lemma reference_avif_missing : avif_encoder_missing (H := pillow).
Proof. intros img path args fs. reflexivity. Qed.

Lemma reference_shows_no_exif_unasked (fmt : string) :
  PyStr.upper fmt ≠ "TIFF" →
  shows_no_exif_unasked (H := pillow) (Some fmt).
Proof.
  intros Hfmt%String.eqb_neq img path args fs fs' f img' Hs Hargs Himg Hf Hopen.
  change (save img path (Some fmt) args fs = (fs', inr ())) in Hs.
  unfold save in Hs.
  destruct (negb (existsb _ registered)); [done|].
  destruct (encoder_error _ img); [by destruct (negb _)|].
  injection Hs as <-. rewrite lookup_insert_eq in Hf. injection Hf as <-.
  simpl in Hopen. injection Hopen as <-. simpl.
  unfold written_exif. by rewrite Hfmt, Hargs.
Qed.

Lemma convert_color_mode_policy_witness :
  normalize_mode (H := pillow) "AVIF" rgba_png world_rgba_png
  = (world_rgba_png, inr rgba_png_on_white)
  ∧ normalize_mode (H := pillow) "WebP" rgba_png world_rgba_png
    = (world_rgba_png, inr rgba_png).
Proof.
  split.
  - rewrite (proj1 (proj2 (convert_color_mode_policy (H := pillow) "AVIF"
                             rgba_png world_rgba_png))
               eq_refl ltac:(discriminate)).
    reflexivity.
  - exact (proj1 (convert_color_mode_policy (H := pillow) "WebP" rgba_png
                    world_rgba_png) eq_refl eq_refl).
Defined.

(** C1 (as stated) fails: a greyscale image with an alpha band, converted
    to WebP, does not reach the encoder as it is; it reaches it in mode RGB,
    without its alpha band. *)
Lemma grey_alpha_webp_not_kept :
  im_mode la_png = "LA"
  ∧ ∃ call,
      w_saved (fst (convert_image (H := pillow) "in/a.png" "out/a.png" "webp"
                      80 false world_la_png)) = [call]
      ∧ im_mode (sc_image call) = "RGB"
      ∧ im_data (sc_image call) = [[10; 10; 10]; [200; 200; 200]]
      ∧ sc_image call ≠ la_png.
Proof.
  split; [reflexivity|].
  exists (mkSaveCall
            {| im_mode := "RGB"; im_size := (2, 1);
               im_data := [[10; 10; 10]; [200; 200; 200]];
               im_format := None; im_exif := ∅ |}
            "out/a.webp" (Some "WEBP")
            {| sa_quality := Some 80; sa_optimize := None;
               sa_method := Some 6; sa_exif := None |}).
  split; [by vm_compute|]. split; [done|]. split; [done|].
  simpl. intros Heq. discriminate Heq.
Qed.

(** C2 (as stated) fails: [compress_image] called with quality 150 hands
    150 to the encoder, not [clamp(150, 1, 100)]. *)
Lemma quality_150_not_clamped :
  map (λ c, sa_quality (sc_args c))
    (w_saved (fst (compress_image (H := pillow) "in/a.jpg" "out/a.jpg" 150
                     false world_rgb_jpeg)))
  = [Some 150]
  ∧ clamp 150 1 100 = 100.
Proof. split; by vm_compute. Qed.

Lemma predicted_path_is_written_path_witness :
  convert_output_path
    (OsPath.join "out" (OsPath.basename "in/x.y/photo.tar.jpeg")) "WebP"
  = Some (predicted_output_path "out" "WebP" "in/x.y/photo.tar.jpeg")
  ∧ predicted_output_path "out" "WebP" "in/x.y/photo.tar.jpeg"
    = "out/photo.tar.webp".
Proof.
  split.
  - exact (proj1 (predicted_path_is_written_path (H := pillow) "out"
                    "in/x.y/photo.tar.jpeg" "WebP" 80 false world_rgb_jpeg []
                    "WebP") eq_refl).
  - reflexivity.
Defined.

Lemma reduction_from_disk_sizes_witness :
  ∃ f_in f_out,
    w_fs world_tiny_jpeg !! "in/t.jpg" = Some f_in
    ∧ w_fs (fst (compress_image (H := pillow) "in/t.jpg" "out/t.jpg" 85 false
                   world_tiny_jpeg)) !! "out/t.jpg" = Some f_out
    ∧ f_size f_in ≠ 0
    ∧ snd (snd (compress_image (H := pillow) "in/t.jpg" "out/t.jpg" 85 false
                  world_tiny_jpeg))
      = (inject_Z (f_size f_in - f_size f_out) / inject_Z (f_size f_in)
         * inject_Z 100)%Q.
Proof.
  exact (proj1 (reduction_from_disk_sizes (H := pillow) "in/t.jpg" "out/t.jpg"
                  "" 85 false world_tiny_jpeg _ _ _) eq_refl).
Defined.

(** The output of that run is larger than its input, and the reduction is
    reported as the negative number it is. *)
Example reduction_may_be_negative :
  (snd (snd (compress_image (H := pillow) "in/t.jpg" "out/t.jpg" 85 false
               world_tiny_jpeg)) == - (590 # 1))%Q.
Proof. by vm_compute. Qed.

Lemma avif_encoder_missing_reported_witness :
  snd (convert_image (H := pillow) "in/a.png" "out/a.png" "avif" 80 false
         world_rgba_png)
  = (false, avif_plugin_message, 0%Q).
Proof.
  exact (proj1 (avif_encoder_missing_reported (H := pillow) "in/a.png"
                  "out/a.png" "avif" 80 false world_rgba_png
                  (file_of 100 rgba_png) rgba_png
                  reference_avif_missing eq_refl eq_refl eq_refl)).
Defined.

Lemma avif_error_classification_witness :
  snd (convert_image (H := pillow) "in/a.png" "out/a.png" "AVIF" 80 false
         world_rgba_png)
  = (false, avif_plugin_message, 0%Q).
Proof.
  exact (proj1 (avif_error_classification (H := pillow) "in/a.png"
                  "out/a.png" "AVIF" 80 false world_rgba_png
                  (file_of 100 rgba_png) rgba_png rgba_png_on_white
                  (mkException "KeyError" "'AVIF'")
                  eq_refl eq_refl eq_refl eq_refl eq_refl)
           (or_introl eq_refl)).
Defined.

Lemma strip_metadata_round_trip_witness :
  has_exif_data "in/a.jpg" world_rgb_jpeg
  = (world_rgb_jpeg, true)
  ∧ has_exif_data "out/a.jpg"
      (fst (strip_metadata (H := pillow) "in/a.jpg" "out/a.jpg" world_rgb_jpeg))
    = (fst (strip_metadata (H := pillow) "in/a.jpg" "out/a.jpg" world_rgb_jpeg),
       false).
Proof.
  split; [reflexivity|].
  exact (proj1 (strip_metadata_round_trip (H := pillow) "in/a.jpg" "out/a.jpg"
                  world_rgb_jpeg _ _ (file_of 100 rgb_jpeg) rgb_jpeg
                  eq_refl eq_refl
                  (reference_shows_no_exif_unasked "JPEG" ltac:(discriminate))
                  eq_refl)).
Defined.

(** C6 (as stated) fails: a TIFF with EXIF is stripped with success, and
    [has_exif_data] on the output is still true, because [getexif()] on the
    TIFF written lists the tags of its directory. *)
Lemma stripped_tiff_still_has_exif :
  snd (has_exif_data "in/s.tif" world_grey_tiff) = true
  ∧ snd (strip_metadata (H := pillow) "in/s.tif" "out/s.tif" world_grey_tiff)
    = (true, "Metadata removed successfully")
  ∧ snd (has_exif_data "out/s.tif"
           (fst (strip_metadata (H := pillow) "in/s.tif" "out/s.tif"
                   world_grey_tiff))) = true.
Proof. repeat split; by vm_compute. Qed.

Lemma failure_leaves_encoder_state_witness :
  fst (convert_image (H := pillow) "in/a.jpg" "out/a.jpg" "tiff" 80 false
         world_rgb_jpeg) = world_rgb_jpeg
  ∧ fst (fst (snd (convert_image (H := pillow) "in/a.jpg" "out/a.jpg" "tiff"
                     80 false world_rgb_jpeg))) = false.
Proof.
  exact (proj2 (proj2 (proj2 (failure_leaves_encoder_state (H := pillow)
                                "in/a.jpg" "out/a.jpg" "tiff" 80 false
                                world_rgb_jpeg)))
           ltac:(discriminate) ltac:(discriminate)).
Defined.

(** C7 (as stated) fails: a PNG wider than WebP allows is converted to
    WebP over an existing 500 byte file; the encoder opens the output,
    refuses the image, and [convert_image] returns a failure with the
    output path holding a zero byte file. *)
Lemma failed_convert_leaves_truncated_file :
  fst (fst (snd (convert_image (H := pillow) "in/wide.png" "out/wide.png"
                   "webp" 80 false world_wide_png))) = false
  ∧ f_size <$> (w_fs world_wide_png !! "out/wide.webp") = Some 500
  ∧ f_size <$> (w_fs (fst (convert_image (H := pillow) "in/wide.png"
                             "out/wide.png" "webp" 80 false world_wide_png))
                !! "out/wide.webp") = Some 0.
Proof. repeat split; by vm_compute. Qed.

Lemma webp_exif_from_normalized_image_witness :
  ∃ img',
    normalize_mode (H := pillow) "webp" grey_jpeg world_grey_jpeg
    = (world_grey_jpeg, inr img')
    ∧ im_exif img' = im_exif grey_jpeg
    ∧ sa_exif (convert_save_kwargs "webp" 80 false img')
      = Some (im_exif grey_jpeg).
Proof.
  destruct (webp_exif_from_normalized_image (H := pillow) "in/g.jpg"
              "out/g.jpg" "webp" 80 false world_grey_jpeg
              (file_of 100 grey_jpeg) grey_jpeg eq_refl eq_refl eq_refl)
    as (img' & Hn & Hexif & _ & Hkw).
  exists img'. split; [exact Hn|]. split; [exact Hexif|].
  rewrite Hkw, Hexif. reflexivity.
Defined.

(** C10 (as stated) fails: a greyscale JPEG with an EXIF orientation tag,
    converted to WebP with [remove_metadata] false, needs a mode conversion,
    and its EXIF is handed to the encoder all the same and is found in the
    output. *)
Lemma grey_jpeg_exif_forwarded :
  im_mode grey_jpeg = "L"
  ∧ map (λ c, (im_mode (sc_image c), sa_exif (sc_args c)))
      (w_saved (fst (convert_image (H := pillow) "in/g.jpg" "out/g.jpg" "webp"
                       80 false world_grey_jpeg)))
    = [("RGB", Some {[ 274 := "1" ]})]
  ∧ snd (has_exif_data "out/g.webp"
           (fst (convert_image (H := pillow) "in/g.jpg" "out/g.jpg" "webp"
                   80 false world_grey_jpeg))) = true.
Proof. repeat split; by vm_compute. Qed.

(** The same conversion of a greyscale TIFF hands no EXIF to the encoder:
    what [getexif()] read from the TIFF's directory is gone after the mode
    conversion. *)
Example grey_tiff_exif_not_forwarded :
  snd (has_exif_data "in/s.tif" world_grey_tiff) = true
  ∧ map (λ c, (im_mode (sc_image c), sa_exif (sc_args c)))
      (w_saved (fst (convert_image (H := pillow) "in/s.tif" "out/s.tif" "webp"
                       80 false world_grey_tiff)))
    = [("RGB", None)].
Proof. split; by vm_compute. Qed.

End ReferenceRuns.

(** * Further properties of the conflict check *)

Section ConflictFacts.
Import PyStr OsPath.

Lemma output_filename_no_sep (output_format input_path : string) :
  rfind (output_filename output_format input_path) sep = -1.
Proof.
  unfold output_filename.
  pose proof (rfind_basename input_path) as Hb.
  pose proof (splitext_root_no_sep _ Hb) as Hroot.
  repeat case_match; try done; by rewrite rfind_app_absent.
Qed.

Lemma join_plain (a b : string) :
  rfind b sep = -1 → join a b = a +:+ b ∨ join a b = a +:+ "/" +:+ b.
Proof.
  intros Hb. unfold join. rewrite (no_sep_startswith b Hb).
  destruct (_ || _); [by left | by right].
Qed.

Lemma basename_join (a b : string) :
  rfind b sep = -1 → basename (join a b) = b.
Proof.
  intros Hb. destruct (join_no_sep a b Hb) as (pre & Hpre & Hjoin).
  rewrite (Hjoin b Hb). unfold basename.
  rewrite (rfind_app_absent pre b sep Hb).
  destruct Hpre as [-> | Hends].
  - by rewrite append_nil.
  - rewrite (rfind_ends pre sep Hends). unfold slen.
    replace (Z.to_nat (Z.of_nat (String.length pre) - 1 + 1))
      with (String.length pre + 0)%nat by lia.
    by rewrite drop_app_str.
Qed.

(** X1: [check_conflicts] returns one record for each input whose predicted
    path exists, in the order of the inputs; an input listed twice is
    reported twice. *)
Theorem check_conflicts_inputs_in_order (w : World) (image_paths : list string)
    (output_folder output_format : string) :
  map c_input (check_conflicts w image_paths output_folder output_format)
  = List.filter
      (λ p, exists_ (w_fs w)
              (predicted_output_path output_folder output_format p))
      image_paths.
Proof.
  induction image_paths as [|p rest IH]; simpl; [done|].
  destruct (exists_ _ _); [|done].
  destruct (existing_info _ _). simpl. by rewrite IH.
Qed.

(** X3: in every record the base name of the output path is the stored
    output file name, so the name the conflict dialog falls back to,
    [os.path.basename(conflict['output'])], is the name it is given. *)
Theorem conflict_filename_is_basename (w : World) (image_paths : list string)
    (output_folder output_format : string) :
  Forall (λ c, basename (c_output c) = c_output_filename c)
    (check_conflicts w image_paths output_folder output_format).
Proof.
  induction image_paths as [|p rest IH]; simpl; [constructor|].
  destruct (exists_ _ _); [|done]. destruct (existing_info _ _).
  constructor; [|done]. simpl. unfold predicted_output_path.
  apply basename_join, output_filename_no_sep.
Qed.

(** X4: [check_conflicts] compares the format name exactly: any name other
    than ["WebP"] and ["AVIF"], a lower-case ["webp"] included, is treated
    as ["Keep Original"]. *)
Theorem check_conflicts_unknown_format (w : World) (image_paths : list string)
    (output_folder output_format : string) :
  output_format ≠ "WebP" → output_format ≠ "AVIF" →
  check_conflicts w image_paths output_folder output_format
  = check_conflicts w image_paths output_folder "Keep Original".
Proof.
  intros H1%String.eqb_neq H2%String.eqb_neq.
  assert (∀ p, output_filename output_format p
               = output_filename "Keep Original" p) as Hname.
  { intros p. unfold output_filename. rewrite H1, H2. simpl.
    by destruct (String.eqb output_format "Keep Original"). }
  induction image_paths as [|p rest IH]; simpl; [done|].
  unfold predicted_output_path. by rewrite Hname, IH.
Qed.

(** X5: the predicted output path is the output folder, a separator if the
    folder does not end with one, and a file name without separator: no
    directory of the input path reaches the output path. *)
Theorem predicted_path_in_output_folder
    (output_folder output_format input_path : string) :
  rfind (output_filename output_format input_path) sep = -1
  ∧ (predicted_output_path output_folder output_format input_path
     = output_folder +:+ output_filename output_format input_path
     ∨ predicted_output_path output_folder output_format input_path
       = output_folder +:+ "/" +:+ output_filename output_format input_path).
Proof.
  split; [apply output_filename_no_sep|].
  apply join_plain, output_filename_no_sep.
Qed.

End ConflictFacts.

(** * Further properties of the encoder calls *)

Section EncoderFacts.
Context `{Pillow}.

Lemma normalize_mode_result_mode (tf : string) (img img' : Image)
    (w w' : World) :
  normalize_mode tf img w = (w', inr img') →
  (im_mode img' = "RGB" ∧ im_size img' = im_size img)
  ∨ (im_mode img' = "RGBA" ∧ PyStr.lower tf = "webp" ∧ img' = img).
Proof.
  destruct (String.eqb_spec (im_mode img) "RGBA") as [Hm | H1].
  - destruct (String.eqb_spec (PyStr.lower tf) "webp") as [Htf | Htf].
    + rewrite normalize_rgba_webp by done. intros [= _ <-]. by right.
    + rewrite normalize_rgba_other by done. intros [= _ <-]. by left.
  - destruct (String.eqb_spec (im_mode img) "LA") as [Hm | H2];
      [rewrite normalize_la_p by (by left); intros [= _ <-]; by left|].
    destruct (String.eqb_spec (im_mode img) "P") as [Hm | H3];
      [rewrite normalize_la_p by (by right); intros [= _ <-]; by left|].
    destruct (String.eqb_spec (im_mode img) "RGB") as [Hm | H4];
      [rewrite normalize_rgb by done; intros [= _ <-]; by left|].
    rewrite normalize_other by done. intros [= _ <-]. by left.
Qed.

(** The one call of [convert_image], with its format. *)
Lemma convert_image_saved_call (input_path output_path tf : string) (q : Z)
    (rm : bool) (w : World) :
  w_saved (fst (convert_image input_path output_path tf q rm w)) = w_saved w
  ∨ ∃ f img img' p,
      w_fs w !! input_path = Some f ∧ f_image f = inr img
      ∧ normalize_mode tf img w = (w, inr img')
      ∧ convert_output_path output_path tf = Some p
      ∧ w_saved (fst (convert_image input_path output_path tf q rm w))
        = w_saved w
            ++ [mkSaveCall img' p
                  (Some (if String.eqb (PyStr.lower tf) "webp"
                         then "WEBP" else "AVIF"))
                  (convert_save_kwargs tf q rm img')].
Proof.
  destruct (w_fs w !! input_path) as [f|] eqn:Hf.
  2: { left. f_equal. apply convert_image_unopened. intros; congruence. }
  destruct (f_image f) as [e | img] eqn:Himg.
  { left. f_equal. apply convert_image_unopened. intros; congruence. }
  destruct (normalize_mode_total tf img w) as [img' Hn].
  rewrite (convert_image_world _ _ _ _ _ _ _ _ _ Hf Himg Hn).
  unfold convert_output_path.
  destruct (String.eqb_spec (PyStr.lower tf) "webp") as [Hwebp | Hwebp].
  - right. exists f, img, img', (fst (OsPath.splitext output_path) +:+ ".webp").
    repeat split; try done. by rewrite convert_encode_webp.
  - destruct (String.eqb_spec (PyStr.lower tf) "avif") as [Havif | Havif].
    + right. exists f, img, img', (fst (OsPath.splitext output_path) +:+ ".avif").
      repeat split; try done. by rewrite convert_encode_avif.
    + left. by rewrite convert_encode_unsupported.
Qed.

(** X6: the image [convert_image] hands to the encoder has mode RGB and the
    size of the source, or it is the untouched RGBA source and the target
    is WebP; the compression method is always 6. *)
Theorem convert_image_encoder_mode (input_path output_path tf : string)
    (q : Z) (rm : bool) (w : World) :
  ∃ new,
    w_saved (fst (convert_image input_path output_path tf q rm w))
    = w_saved w ++ new
    ∧ Forall (λ c, (im_mode (sc_image c) = "RGB"
                    ∨ (im_mode (sc_image c) = "RGBA"
                       ∧ PyStr.lower tf = "webp"))
                   ∧ sa_method (sc_args c) = Some 6) new.
Proof.
  destruct (convert_image_saved_call input_path output_path tf q rm w)
    as [-> | (f & img & img' & p & _ & _ & Hn & _ & ->)].
  - exists []. by rewrite app_nil_r.
  - eexists [_]. split; [done|]. constructor; [|constructor]. split; simpl.
    + destruct (normalize_mode_result_mode _ _ _ _ _ Hn)
        as [[Hm _] | (Hm & Htf & Heq)]; [by left | right; by subst].
    + unfold convert_save_kwargs. by repeat case_match.
Qed.

(** X7: a conversion to AVIF hands the encoder an RGB image in format AVIF
    and never any EXIF, whatever [remove_metadata] says. *)
Theorem convert_avif_drops_metadata (input_path output_path tf : string)
    (q : Z) (rm : bool) (w : World) :
  PyStr.lower tf = "avif" →
  ∃ new,
    w_saved (fst (convert_image input_path output_path tf q rm w))
    = w_saved w ++ new
    ∧ Forall (λ c, sa_exif (sc_args c) = None
                   ∧ sc_format c = Some "AVIF"
                   ∧ im_mode (sc_image c) = "RGB") new.
Proof.
  intros Htf.
  destruct (convert_image_saved_call input_path output_path tf q rm w)
    as [-> | (f & img & img' & p & _ & _ & Hn & _ & ->)].
  - exists []. by rewrite app_nil_r.
  - eexists [_]. split; [done|]. repeat constructor; simpl.
    + unfold convert_save_kwargs. rewrite Htf. simpl.
      rewrite andb_false_r. by destruct (negb rm).
    + by rewrite Htf.
    + destruct (normalize_mode_result_mode _ _ _ _ _ Hn)
        as [[Hm _] | (_ & Hwebp & _)]; [done | congruence].
Qed.

(** X8: [compress_image] re-encodes an input it can open in the input's own
    format, at the output path it is given and with [optimize] on; the
    image keeps its size and is the source itself, except that an RGBA JPEG
    is converted to RGB; EXIF is handed over exactly when [remove_metadata]
    is false and the source has some. *)
Theorem compress_image_encoder_call (input_path output_path : string) (q : Z)
    (rm : bool) (w : World) (f : File) (img : Image) :
  w_fs w !! input_path = Some f → f_image f = inr img →
  ∃ call,
    w_saved (fst (compress_image input_path output_path q rm w))
    = w_saved w ++ [call]
    ∧ sc_path call = output_path
    ∧ sc_format call = im_format img
    ∧ sa_optimize (sc_args call) = Some true
    ∧ sa_exif (sc_args call)
      = (if rm then None
         else if exif_truthy (im_exif img) then Some (im_exif img) else None)
    ∧ sc_image call
      = (if is_jpeg_rgba (im_format img) img then convert img "RGB" else img)
    ∧ im_size (sc_image call) = im_size img.
Proof.
  intros Hf Himg. rewrite (compress_image_try_opened _ _ _ _ _ _ _ Hf Himg).
  cbv zeta.
  match goal with
  | |- context [mkSaveCall ?i ?p ?fm ?k] => exists (mkSaveCall i p fm k)
  end.
  split; [repeat case_match; done|]. repeat split; try done.
  simpl. by destruct (is_jpeg_rgba _ _).
Qed.

(** X9: every failure result of [compress_image] and of [convert_image]
    carries the reduction [0.0]. *)
Theorem failure_reports_zero_reduction (input_path output_path tf : string)
    (q : Z) (rm : bool) (w : World) :
  (fst (fst (snd (compress_image input_path output_path q rm w))) = false →
   snd (snd (compress_image input_path output_path q rm w)) = 0%Q)
  ∧ (fst (fst (snd (convert_image input_path output_path tf q rm w))) = false →
     snd (snd (convert_image input_path output_path tf q rm w)) = 0%Q).
Proof.
  split.
  - destruct (w_fs w !! input_path) as [f|] eqn:Hf.
    2: { unfold compress_image, run_caught, compress_image_try, bind,
           Image_open. by rewrite Hf. }
    destruct (f_image f) as [e | img] eqn:Himg.
    { unfold compress_image, run_caught, compress_image_try, bind,
        Image_open. by rewrite Hf, Himg. }
    rewrite (compress_image_try_opened _ _ _ _ _ _ _ Hf Himg). cbv zeta.
    by repeat case_match.
  - destruct (w_fs w !! input_path) as [f|] eqn:Hf.
    2: { unfold convert_image, run_caught, convert_image_try, bind,
           Image_open. by rewrite Hf. }
    destruct (f_image f) as [e | img] eqn:Himg.
    { unfold convert_image, run_caught, convert_image_try, bind,
        Image_open. by rewrite Hf, Himg. }
    destruct (normalize_mode_total tf img w) as [img' Hn].
    unfold convert_image, run_caught.
    rewrite (convert_image_try_opened _ _ _ _ _ _ _ _ _ Hf Himg Hn).
    unfold bind.
    destruct (convert_encode _ _ _ _ w) as [w1 [e | [early | p]]] eqn:He;
      [done | |].
    + destruct (String.eqb_spec (PyStr.lower tf) "webp") as [Hwebp | Hwebp].
      { rewrite convert_encode_webp in He by done. injection He as _ He.
        by destruct (snd (pil_save _ _ _ _ _)). }
      destruct (String.eqb_spec (PyStr.lower tf) "avif") as [Havif | Havif].
      * rewrite convert_encode_avif in He by done. injection He as _ He.
        destruct (snd (pil_save _ _ _ _ _)) as [e|]; [|done].
        destruct (looks_like_missing_plugin e); by simplify_eq.
      * rewrite convert_encode_unsupported in He by done. by simplify_eq.
    + unfold getsize, py_truediv, ret, raise.
      destruct (w_fs w1 !! p); simpl; [|done].
      by destruct (f_size f =? 0).
Qed.

(** X10: a quality that went through [validate_quality] reaches the encoder
    of [compress_image] and of [convert_image] as a value in [1,100]. *)
Theorem validated_quality_in_range (x : PyNumber) (r : Z)
    (input_path output_path tf : string) (rm : bool) (w : World) :
  validate_quality x = inr r →
  (∃ new,
     w_saved (fst (compress_image input_path output_path r rm w))
     = w_saved w ++ new
     ∧ Forall (λ c, sa_quality (sc_args c) = Some r ∧ 1 ≤ r ≤ 100) new)
  ∧ (∃ new,
       w_saved (fst (convert_image input_path output_path tf r rm w))
       = w_saved w ++ new
       ∧ Forall (λ c, sa_quality (sc_args c) = Some r ∧ 1 ≤ r ≤ 100) new).
Proof.
  intros Hv. assert (1 ≤ r ≤ 100) as Hr.
  { unfold validate_quality in Hv. destruct (py_int x); [done|].
    injection Hv as <-. lia. }
  split.
  - destruct (compress_image_saved input_path output_path r rm w)
      as [-> | (call & -> & _ & Hq)].
    + exists []. by rewrite app_nil_r.
    + exists [call]. split; [done|]. constructor; [by split | constructor].
  - destruct (convert_image_saved_call input_path output_path tf r rm w)
      as [-> | (f & img & img' & p & _ & _ & _ & _ & ->)].
    + exists []. by rewrite app_nil_r.
    + eexists [_]. split; [done|]. constructor; [split; [|done] | constructor].
      simpl. unfold convert_save_kwargs. by repeat case_match.
Qed.

End EncoderFacts.

(** * Further properties of the quality value *)

Section QualityOrder.

Lemma validate_quality_value (x : PyNumber) (v : Q) :
  finite_value x = Some v →
  validate_quality x = inr (Z.max 1 (Z.min 100 (Qtrunc v))).
Proof.
  destruct x as [z | q | b |]; simpl; intros Hv; simplify_eq.
  - unfold validate_quality. simpl. by rewrite Qtrunc_inject_Z.
  - done.
Qed.

Lemma Qtrunc_monotone (v1 v2 : Q) : (v1 <= v2)%Q → Qtrunc v1 ≤ Qtrunc v2.
Proof.
  intros Hle. rewrite !Qtrunc_toward_zero. unfold toward_zero.
  destruct (Qle_bool 0 v1) eqn:E1; destruct (Qle_bool 0 v2) eqn:E2.
  - by apply Qfloor_resp_le.
  - apply Qle_bool_iff in E1.
    assert (¬ (0 <= v2)%Q) as E2' by (rewrite <- Qle_bool_iff; congruence).
    destruct E2'. by apply (Qle_trans _ v1).
  - apply Qle_bool_iff in E2.
    assert (¬ (0 <= v1)%Q) as E1' by (rewrite <- Qle_bool_iff; congruence).
    apply Qnot_le_lt, Qlt_le_weak in E1'.
    transitivity 0.
    + change 0 with (Qceiling 0). by apply Qceiling_resp_le.
    + change 0 with (Qfloor 0). by apply Qfloor_resp_le.
  - by apply Qceiling_resp_le.
Qed.

(** X11: [validate_quality] returns its own results unchanged, and a larger
    finite input never gets a smaller quality. *)
Theorem validate_quality_idempotent_monotone :
  (∀ x r, validate_quality x = inr r → validate_quality (PyInt r) = inr r)
  ∧ (∀ x1 x2 v1 v2 r1 r2,
       finite_value x1 = Some v1 → finite_value x2 = Some v2 →
       (v1 <= v2)%Q →
       validate_quality x1 = inr r1 → validate_quality x2 = inr r2 →
       r1 ≤ r2).
Proof.
  split.
  - intros x r Hv. unfold validate_quality in *. destruct (py_int x); [done|].
    injection Hv as <-. simpl. f_equal. lia.
  - intros x1 x2 v1 v2 r1 r2 H1 H2 Hle Hr1 Hr2.
    rewrite (validate_quality_value _ _ H1) in Hr1.
    rewrite (validate_quality_value _ _ H2) in Hr2.
    injection Hr1 as <-. injection Hr2 as <-.
    pose proof (Qtrunc_monotone v1 v2 Hle). lia.
Qed.

Lemma validate_quality_idempotent_monotone_witness :
  validate_quality (PyInt 100) = inr 100
  ∧ ∃ r1 r2, validate_quality (PyFloat (-5 # 2)) = inr r1
             ∧ validate_quality (PyInt 250) = inr r2 ∧ r1 ≤ r2.
Proof.
  split.
  - exact (proj1 validate_quality_idempotent_monotone (PyInt 250) 100 eq_refl).
  - exists 1, 100. split; [reflexivity|]. split; [reflexivity|].
    exact (proj2 validate_quality_idempotent_monotone (PyFloat (-5 # 2))
             (PyInt 250) (-5 # 2) (inject_Z 250) 1 100 eq_refl eq_refl
             ltac:(discriminate) eq_refl eq_refl).
Defined.

End QualityOrder.

(** * Further properties of the metadata functions *)

Section MetadataFacts.
Context `{Pillow}.

(** X12: [has_exif_data] changes nothing, and is true exactly for a file
    that opens as an image with at least one EXIF entry: a missing or
    unreadable file gives false, not an exception. *)
Theorem has_exif_data_reads_only (image_path : string) (w : World) :
  fst (has_exif_data image_path w) = w
  ∧ (snd (has_exif_data image_path w) = true
     ↔ ∃ f img, w_fs w !! image_path = Some f ∧ f_image f = inr img
                ∧ im_exif img ≠ ∅).
Proof.
  unfold has_exif_data, run_caught, bind, Image_open, ret, getexif.
  destruct (w_fs w !! image_path) as [f|] eqn:Hf; simpl.
  2: { split; [done|]. split; [done | by intros (? & ? & ? & _)]. }
  destruct (f_image f) as [e | img] eqn:Himg; simpl.
  { split; [done|]. split; [done|]. intros (f' & img & Hf' & Himg' & _).
    congruence. }
  split; [done|]. rewrite bool_decide_eq_true. split.
  - intros Hsize. exists f, img. repeat split; try done.
    intros Hempty. apply map_size_empty_iff in Hempty. unfold Exif in *. lia.
  - intros (f' & img' & Hf' & Himg' & Hne).
    injection Hf' as <-. rewrite Himg in Himg'. injection Himg' as <-.
    apply Nat.neq_0_lt_0. intros Hz. by apply map_size_empty_iff in Hz.
Qed.

(** X13: when the input cannot be opened, [strip_metadata] makes no
    [save], leaves the world as it found it and returns a failure whose
    message begins with ["Error removing metadata: "]; when the input
    opens, it makes exactly one [save], of the rebuilt image, in the
    source's format, without any argument, to the output path it is given,
    and returns ["Metadata removed successfully"] if that [save] succeeds
    and ["Error removing metadata: "] with the encoder's message if it
    raises. *)
Theorem strip_metadata_outcomes (image_path output_path : string) (w : World) :
  ((∀ f img, w_fs w !! image_path = Some f → f_image f ≠ inr img) →
   fst (strip_metadata image_path output_path w) = w
   ∧ ∃ e, snd (strip_metadata image_path output_path w)
          = (false, "Error removing metadata: " +:+ exc_str e))
  ∧ (∀ f img,
       w_fs w !! image_path = Some f → f_image f = inr img →
       let clean :=
         putdata (Image_new (im_mode img) (im_size img)
                    (zero_pixel (im_mode img))) (im_data img) in
       fst (strip_metadata image_path output_path w)
       = {| w_fs := fst (pil_save clean output_path (im_format img)
                           no_save_args (w_fs w));
            w_saved := w_saved w
                         ++ [mkSaveCall clean output_path (im_format img)
                               no_save_args] |}
       ∧ snd (strip_metadata image_path output_path w)
         = match snd (pil_save clean output_path (im_format img) no_save_args
                        (w_fs w)) with
           | inl e => (false, "Error removing metadata: " +:+ exc_str e)
           | inr _ => (true, "Metadata removed successfully")
           end).
Proof.
  split.
  - intros Hno. unfold strip_metadata, run_caught, bind, Image_open.
    destruct (w_fs w !! image_path) as [f|] eqn:Hf;
      [|split; [done | by eexists]].
    destruct (f_image f) as [e | img] eqn:Himg;
      [split; [done | by eexists]|].
    by destruct (Hno f img).
  - intros f img Hf Himg clean.
    by rewrite (strip_metadata_opened _ _ _ _ _ Hf Himg).
Qed.

End MetadataFacts.

(** * The formats on offer *)

Section FormatFacts.

Lemma get_supported_formats_cases
    (registered_extensions : Result (gmap string string)) :
  get_supported_formats registered_extensions
  = if is_avif_supported registered_extensions
    then ["Keep Original"; "WebP"; "AVIF"] else ["Keep Original"; "WebP"].
Proof.
  unfold get_supported_formats, is_avif_supported.
  destruct registered_extensions as [e | exts]; [done|].
  by destruct (in_values "AVIF" exts).
Qed.

Lemma elem_of_two (x a b : string) : x ∈ [a; b] → x = a ∨ x = b.
Proof.
  intros Hin. apply list_elem_of_In in Hin. simpl in Hin.
  destruct Hin as [<- | [<- | []]]; [by left | by right].
Qed.

Lemma elem_of_three (x a b c : string) :
  x ∈ [a; b; c] → x = a ∨ x = b ∨ x = c.
Proof.
  intros Hin. apply list_elem_of_In in Hin. simpl in Hin.
  destruct Hin as [<- | [<- | [<- | []]]]; auto.
Qed.

(** X14: [get_supported_formats] always offers ["Keep Original"] and
    ["WebP"], in that order and without repetition, and offers ["AVIF"],
    last, exactly when [is_avif_supported] is true, that is when some
    registered extension maps to ["AVIF"]; when the registry cannot be read
    AVIF is not offered and [is_avif_supported] is false. *)
Theorem supported_formats_consistent
    (registered_extensions : Result (gmap string string)) :
  (get_supported_formats registered_extensions
   = if is_avif_supported registered_extensions
     then ["Keep Original"; "WebP"; "AVIF"] else ["Keep Original"; "WebP"])
  ∧ ("AVIF" ∈ get_supported_formats registered_extensions
     ↔ is_avif_supported registered_extensions = true)
  ∧ NoDup (get_supported_formats registered_extensions)
  ∧ (is_avif_supported registered_extensions = true
     ↔ ∃ exts ext, registered_extensions = inr exts
                   ∧ exts !! ext = Some "AVIF").
Proof.
  split; [apply get_supported_formats_cases|].
  rewrite get_supported_formats_cases. split; [|split].
  - destruct (is_avif_supported registered_extensions).
    + split; [done|]. intros _. apply list_elem_of_In. simpl. tauto.
    + split; [|done]. intros [? | ?]%elem_of_two; discriminate.
  - destruct (is_avif_supported registered_extensions).
    + constructor; [intros [? | ?]%elem_of_two; discriminate|].
      constructor; [intros ?%list_elem_of_singleton; discriminate|].
      constructor; [apply not_elem_of_nil | constructor].
    + constructor; [intros ?%list_elem_of_singleton; discriminate|].
      constructor; [apply not_elem_of_nil | constructor].
  - unfold is_avif_supported.
    destruct registered_extensions as [e | exts].
    { split; [done | by intros (? & ? & ? & _)]. }
    unfold in_values. rewrite bool_decide_eq_true, list_elem_of_fmap.
    split.
    + intros ([ext v] & -> & Hin%elem_of_map_to_list). by exists exts, ext.
    + intros (exts' & ext & [= <-] & Hext). exists (ext, "AVIF").
      split; [done|]. by apply elem_of_map_to_list.
Qed.

(** X15: every format [get_supported_formats] offers, other than
    ["Keep Original"], is a target [convert_image] supports as it is
    spelled, and the path [check_conflicts] predicts for it is the path
    [convert_image] derives from the output folder joined with the input's
    base name. *)
Theorem offered_formats_are_convertible
    (registered_extensions : Result (gmap string string))
    (fmt output_folder input_path : string) :
  fmt ∈ get_supported_formats registered_extensions →
  fmt ≠ "Keep Original" →
  convert_output_path
    (OsPath.join output_folder (OsPath.basename input_path)) fmt
  = Some (predicted_output_path output_folder fmt input_path).
Proof.
  intros Hin Hne.
  assert (fmt = "WebP" ∨ fmt = "AVIF") as [-> | ->].
  { rewrite get_supported_formats_cases in Hin.
    destruct (is_avif_supported _).
    - apply elem_of_three in Hin as [-> | [-> | ->]]; [done | by left | by right].
    - apply elem_of_two in Hin as [-> | ->]; [done | by left]. }
  - unfold convert_output_path, predicted_output_path, output_filename.
    simpl. f_equal. symmetry. by apply join_splitext_basename.
  - unfold convert_output_path, predicted_output_path, output_filename.
    simpl. f_equal. symmetry. by apply join_splitext_basename.
Qed.

Lemma offered_formats_are_convertible_witness :
  convert_output_path
    (OsPath.join "out/" (OsPath.basename "in/.hidden/scan.01.png")) "AVIF"
  = Some (predicted_output_path "out/" "AVIF" "in/.hidden/scan.01.png")
  ∧ predicted_output_path "out/" "AVIF" "in/.hidden/scan.01.png"
    = "out/scan.01.avif".
Proof.
  split; [|reflexivity].
  apply (offered_formats_are_convertible
           (inr {[ ".avif" := "AVIF"; ".png" := "PNG" ]})).
  - apply list_elem_of_In. vm_compute. tauto.
  - discriminate.
Defined.

End FormatFacts.

(** * The EXIF dictionary *)

Section ExifInfoFacts.

Lemma exif_dict_snoc (TAGS : gmap Z string) (items : list (Z * string))
    (tag_id : Z) (value : string) :
  exif_dict_of_items TAGS (items ++ [(tag_id, value)])
  = <[tag_name TAGS tag_id := value]> (exif_dict_of_items TAGS items).
Proof. unfold exif_dict_of_items. by rewrite foldl_snoc. Qed.

Lemma exif_dict_empty_iff (TAGS : gmap Z string) (items : list (Z * string)) :
  exif_dict_of_items TAGS items = ∅ ↔ items = [].
Proof.
  split; [|by intros ->].
  destruct items as [|x items _] using rev_ind; [done|].
  destruct x as [tag_id value]. rewrite exif_dict_snoc.
  intros Hempty. by apply insert_non_empty in Hempty.
Qed.

(** Every entry of the dictionary comes from an item. *)
Lemma exif_dict_from_item (TAGS : gmap Z string) (items : list (Z * string))
    (k : ExifKey) (v : string) :
  exif_dict_of_items TAGS items !! k = Some v →
  ∃ tag_id, (tag_id, v) ∈ items ∧ tag_name TAGS tag_id = k.
Proof.
  induction items as [|[tag_id value] items IH] using rev_ind; [done|].
  rewrite exif_dict_snoc.
  destruct (decide (tag_name TAGS tag_id = k)) as [<- | Hne].
  - rewrite lookup_insert_eq. intros [= <-]. exists tag_id.
    split; [|done]. apply elem_of_app. right. by apply list_elem_of_singleton.
  - rewrite lookup_insert_ne by done. intros (t & Hin & Ht)%IH.
    exists t. split; [|done]. apply elem_of_app. by left.
Qed.

(** An item whose key no other item shares is found under that key. *)
Lemma exif_dict_unshared_key (TAGS : gmap Z string) (items : list (Z * string))
    (tag_id : Z) (value : string) :
  (tag_id, value) ∈ items →
  (∀ t v, (t, v) ∈ items → tag_name TAGS t = tag_name TAGS tag_id →
          (t, v) = (tag_id, value)) →
  exif_dict_of_items TAGS items !! tag_name TAGS tag_id = Some value.
Proof.
  induction items as [|[t v] items IH] using rev_ind;
    [by intros ?%not_elem_of_nil|].
  intros Hin Hunique. rewrite exif_dict_snoc.
  destruct (decide (tag_name TAGS t = tag_name TAGS tag_id)) as [Heq | Hne].
  - rewrite Heq, lookup_insert_eq.
    assert ((t, v) = (tag_id, value)) as [= _ ->]; [|done].
    apply Hunique; [|done]. apply elem_of_app. right.
    by apply list_elem_of_singleton.
  - rewrite lookup_insert_ne by done. apply IH.
    + apply elem_of_app in Hin as [Hin | Hin%list_elem_of_singleton];
        [done|]. by simplify_eq.
    + intros t' v' Hin' Heq'. apply Hunique; [|done].
      apply elem_of_app. by left.
Qed.

Lemma get_exif_info_opened (tags : gmap Z string) (image_path : string)
    (w : World) (f : File) (img : Image) :
  w_fs w !! image_path = Some f → f_image f = inr img →
  get_exif_info (inr tags) image_path w
  = (w, exif_dict_of_items tags (map_to_list (im_exif img))).
Proof.
  intros Hf Himg. unfold get_exif_info, run_caught, bind, Image_open, getexif.
  rewrite Hf, Himg. unfold exif_truthy.
  destruct (decide (im_exif img = ∅)) as [Hempty | Hne].
  - rewrite bool_decide_eq_true_2 by done. simpl.
    assert (map_to_list (im_exif img) = []) as ->
      by (by apply map_to_list_empty_iff).
    done.
  - by rewrite bool_decide_eq_false_2 by done.
Qed.

(** X16: [get_exif_info] changes nothing and never raises; with the tag
    table at hand it returns the empty dictionary exactly when
    [has_exif_data] is false, and without the table it always returns the
    empty dictionary. *)
Theorem get_exif_info_empty_iff (TAGS : Result (gmap Z string))
    (image_path : string) (w : World) :
  fst (get_exif_info TAGS image_path w) = w
  ∧ (∀ tags, TAGS = inr tags →
       (snd (get_exif_info TAGS image_path w) = ∅
        ↔ snd (has_exif_data image_path w) = false))
  ∧ (∀ e, TAGS = inl e → snd (get_exif_info TAGS image_path w) = ∅).
Proof.
  split; [|split].
  - unfold get_exif_info, run_caught, bind, Image_open, lift, ret.
    destruct (w_fs w !! image_path) as [f|]; simpl; [|done].
    destruct (f_image f) as [e | img]; simpl; [done|].
    destruct (exif_truthy _); [|done]. by destruct TAGS.
  - intros tags ->.
    destruct (w_fs w !! image_path) as [f|] eqn:Hf.
    2: { unfold get_exif_info, has_exif_data, run_caught, bind, Image_open.
         by rewrite Hf. }
    destruct (f_image f) as [e | img] eqn:Himg.
    { unfold get_exif_info, has_exif_data, run_caught, bind, Image_open.
      by rewrite Hf, Himg. }
    rewrite (get_exif_info_opened _ _ _ _ _ Hf Himg). simpl.
    unfold has_exif_data, run_caught, bind, Image_open, ret, getexif.
    rewrite Hf, Himg. simpl. rewrite bool_decide_eq_false. split.
    + intros Hd%exif_dict_empty_iff%map_to_list_empty_iff.
      apply map_size_empty_iff in Hd. unfold Exif in *. lia.
    + intros Hsize. apply exif_dict_empty_iff, map_to_list_empty_iff,
        map_size_empty_iff. unfold Exif in *. lia.
  - intros e ->. unfold get_exif_info, run_caught, bind, Image_open, lift, ret.
    destruct (w_fs w !! image_path) as [f|]; simpl; [|done].
    destruct (f_image f) as [e' | img]; simpl; [done|].
    by destruct (exif_truthy _).
Qed.

Lemma get_exif_info_empty_iff_witness :
  snd (get_exif_info (inr {[ 274 := "Orientation" ]}) "in/a.jpg"
         Reference.world_rgb_jpeg) ≠ ∅
  ∧ snd (has_exif_data "in/a.jpg" Reference.world_rgb_jpeg) = true.
Proof.
  split; [|reflexivity]. intros Hempty.
  apply (proj1 (proj2 (get_exif_info_empty_iff
                         (inr {[ 274 := "Orientation" ]}) "in/a.jpg"
                         Reference.world_rgb_jpeg)) _ eq_refl) in Hempty.
  discriminate Hempty.
Defined.

(** X17: for an image that opens, with the tag table at hand: every entry
    of the dictionary [get_exif_info] returns is the value of an EXIF tag
    of the image, under that tag's name or raw id; a tag without a name is
    found under its raw id; a tag whose name no other tag of the image
    shares is found under its name. *)
Theorem get_exif_info_entries (tags : gmap Z string) (image_path : string)
    (w : World) (f : File) (img : Image) :
  w_fs w !! image_path = Some f → f_image f = inr img →
  let info := snd (get_exif_info (inr tags) image_path w) in
  (∀ k v, info !! k = Some v →
     ∃ tag_id, im_exif img !! tag_id = Some v ∧ tag_name tags tag_id = k)
  ∧ (∀ tag_id v, im_exif img !! tag_id = Some v → tags !! tag_id = None →
       info !! inr tag_id = Some v)
  ∧ (∀ tag_id v name,
       im_exif img !! tag_id = Some v → tags !! tag_id = Some name →
       (∀ t, is_Some (im_exif img !! t) → tags !! t = Some name → t = tag_id) →
       info !! inl name = Some v).
Proof.
  intros Hf Himg info. subst info.
  rewrite (get_exif_info_opened _ _ _ _ _ Hf Himg). simpl.
  split; [|split].
  - intros k v (t & Hin%elem_of_map_to_list & Ht)%exif_dict_from_item.
    by exists t.
  - intros tag_id v Hv Hnone.
    assert (tag_name tags tag_id = inr tag_id) as Hkey
      by (unfold tag_name; by rewrite Hnone).
    rewrite <- Hkey. apply exif_dict_unshared_key.
    + by apply elem_of_map_to_list.
    + intros t v' Hin%elem_of_map_to_list Heq. rewrite Hkey in Heq.
      unfold tag_name in Heq. destruct (tags !! t); [done|].
      injection Heq as ->. unfold Exif in *. congruence.
  - intros tag_id v name Hv Hname Hunique.
    assert (tag_name tags tag_id = inl name) as Hkey
      by (unfold tag_name; by rewrite Hname).
    rewrite <- Hkey. apply exif_dict_unshared_key.
    + by apply elem_of_map_to_list.
    + intros t v' Hin%elem_of_map_to_list Heq. rewrite Hkey in Heq.
      unfold tag_name in Heq. destruct (tags !! t) as [n|] eqn:Ht; [|done].
      injection Heq as ->. assert (t = tag_id) as -> by (apply Hunique; eauto).
      unfold Exif in *. congruence.
Qed.

Lemma get_exif_info_entries_witness :
  snd (get_exif_info (inr ∅) "in/a.jpg" Reference.world_rgb_jpeg)
    !! inr 274 = Some "1".
Proof.
  exact (proj1 (proj2 (get_exif_info_entries ∅ "in/a.jpg"
                         Reference.world_rgb_jpeg
                         (Reference.file_of 100 Reference.rgb_jpeg)
                         Reference.rgb_jpeg eq_refl eq_refl))
           274 "1" eq_refl eq_refl).
Defined.

End ExifInfoFacts.

(** * The size shown for a file *)

Section DisplayFacts.
Context `{Pillow}.

Lemma scaled_size_bounds (n u : Z) :
  0 < u → u ≤ n →
  (inject_Z n / inject_Z u * inject_Z u == inject_Z n)%Q
  ∧ (1 <= inject_Z n / inject_Z u)%Q
  ∧ ∀ hi, n < hi * u → (inject_Z n / inject_Z u < inject_Z hi)%Q.
Proof.
  intros Hu Hn.
  assert (0 < inject_Z u)%Q as Hpos
    by (change 0%Q with (inject_Z 0); rewrite <- Zlt_Qlt; lia).
  assert (¬ (inject_Z u == 0)%Q) as Hnz.
  { intros Heq. rewrite Heq in Hpos. by apply Qlt_irrefl in Hpos. }
  split; [|split].
  - unfold Qdiv. rewrite <- Qmult_assoc, (Qmult_comm (/ inject_Z u)).
    rewrite Qmult_inv_r by done. apply Qmult_1_r.
  - apply Qle_shift_div_l; [done|]. rewrite Qmult_1_l.
    rewrite <- Zle_Qle. lia.
  - intros hi Hhi. apply Qlt_shift_div_r; [done|].
    rewrite <- inject_Z_mult, <- Zlt_Qlt. lia.
Qed.

(** X18: [format_file_size] shows a size below 1024 in bytes, as the plain
    integer; any larger size is divided by the largest of 1024, 1024^2 and
    1024^3 that does not exceed it, and that quotient is what the one
    decimal rendering is given: it is at least 1, and below 1024 for KB and
    MB.  The unit is chosen before the rounding of the rendering. *)
Theorem format_file_size_units (size_bytes : Z) :
  (size_bytes < 1024
   ∧ format_file_size size_bytes = pretty size_bytes +:+ " B")
  ∨ ∃ (unit : Z) (suffix : string) (v : Q),
      format_file_size size_bytes = pil_fixed 1 v +:+ suffix
      ∧ (v * inject_Z unit == inject_Z size_bytes)%Q
      ∧ (1 <= v)%Q
      ∧ ((unit = 1024 ∧ suffix = " KB" ∧ (v < 1024)%Q)
         ∨ (unit = 1024 * 1024 ∧ suffix = " MB" ∧ (v < 1024)%Q)
         ∨ (unit = 1024 * 1024 * 1024 ∧ suffix = " GB")).
Proof.
  unfold format_file_size.
  destruct (size_bytes <? 1024) eqn:E1;
    [apply Z.ltb_lt in E1; by left | apply Z.ltb_ge in E1; right].
  destruct (size_bytes <? 1024 * 1024) eqn:E2;
    [apply Z.ltb_lt in E2 | apply Z.ltb_ge in E2].
  { destruct (scaled_size_bounds size_bytes 1024) as (Heq & Hlo & Hhi);
      [lia | lia |].
    exists 1024, " KB", (inject_Z size_bytes / inject_Z 1024)%Q.
    repeat split; try done. left. repeat split; try done.
    apply (Hhi 1024). lia. }
  destruct (size_bytes <? 1024 * 1024 * 1024) eqn:E3;
    [apply Z.ltb_lt in E3 | apply Z.ltb_ge in E3].
  { destruct (scaled_size_bounds size_bytes (1024 * 1024)) as (Heq & Hlo & Hhi);
      [lia | lia |].
    exists (1024 * 1024), " MB",
      (inject_Z size_bytes / inject_Z (1024 * 1024))%Q.
    repeat split; try done. right. left. repeat split; try done.
    apply (Hhi 1024). lia. }
  destruct (scaled_size_bounds size_bytes (1024 * 1024 * 1024))
    as (Heq & Hlo & _); [lia | lia |].
  exists (1024 * 1024 * 1024), " GB",
    (inject_Z size_bytes / inject_Z (1024 * 1024 * 1024))%Q.
  repeat split; try done. right. right. done.
Qed.

End DisplayFacts.

(** * What the conflict check does not look at *)

Section BatchFacts.
Import PyStr OsPath.

(** X19: for WebP and AVIF, two inputs whose base names differ only in the
    extension get the same predicted output path; [check_conflicts] tests
    each predicted path against the files that exist and not against the
    other inputs, so it reports nothing for such a pair while that path
    does not exist. *)
Theorem batch_collision_not_reported (w : World)
    (output_folder output_format p1 p2 : string) :
  output_format = "WebP" ∨ output_format = "AVIF" →
  fst (splitext (basename p1)) = fst (splitext (basename p2)) →
  predicted_output_path output_folder output_format p1
  = predicted_output_path output_folder output_format p2
  ∧ (w_fs w !! predicted_output_path output_folder output_format p1 = None →
     check_conflicts w [p1; p2] output_folder output_format = []).
Proof.
  intros Hfmt Hroot.
  assert (predicted_output_path output_folder output_format p1
          = predicted_output_path output_folder output_format p2) as Heq.
  { unfold predicted_output_path, output_filename.
    destruct Hfmt as [-> | ->]; simpl; by rewrite Hroot. }
  split; [done|]. intros Hnone. simpl. rewrite <- Heq.
  unfold exists_. rewrite Hnone.
  rewrite bool_decide_eq_false_2; [done|]. by intros [? ?].
Qed.

Lemma batch_collision_not_reported_witness :
  predicted_output_path "out" "WebP" "in/a/photo.png" = "out/photo.webp"
  ∧ predicted_output_path "out" "WebP" "in/b/photo.jpg" = "out/photo.webp"
  ∧ check_conflicts Reference.world_rgb_jpeg
      ["in/a/photo.png"; "in/b/photo.jpg"] "out" "WebP" = [].
Proof.
  split; [reflexivity|]. split; [reflexivity|].
  exact (proj2 (batch_collision_not_reported Reference.world_rgb_jpeg "out"
                  "WebP" "in/a/photo.png" "in/b/photo.jpg"
                  (or_introl eq_refl) eq_refl) eq_refl).
Defined.

Lemma check_conflicts_unknown_format_witness :
  check_conflicts Reference.world_wide_png ["in/x/wide.webp"] "out" "webp"
  = check_conflicts Reference.world_wide_png ["in/x/wide.webp"] "out"
      "Keep Original"
  ∧ map c_output
      (check_conflicts Reference.world_wide_png ["in/x/wide.webp"] "out" "webp")
    = ["out/wide.webp"].
Proof.
  split; [|reflexivity].
  exact (check_conflicts_unknown_format Reference.world_wide_png
           ["in/x/wide.webp"] "out" "webp" ltac:(discriminate)
           ltac:(discriminate)).
Defined.

End BatchFacts.

(** * Runs of the further properties on the reference backend *)

Section MoreReferenceRuns.
Import Reference.

Lemma convert_avif_drops_metadata_witness :
  ∃ new,
    w_saved (fst (convert_image (H := pillow) "in/a.jpg" "out/a.jpg" "AVIF" 80
                    false world_rgb_jpeg))
    = w_saved world_rgb_jpeg ++ new
    ∧ Forall (λ c, sa_exif (sc_args c) = None
                   ∧ sc_format c = Some "AVIF"
                   ∧ im_mode (sc_image c) = "RGB") new
    ∧ length new = 1%nat.
Proof.
  destruct (convert_avif_drops_metadata (H := pillow) "in/a.jpg" "out/a.jpg"
              "AVIF" 80 false world_rgb_jpeg eq_refl) as (new & Hnew & Hall).
  exists new. split; [exact Hnew|]. split; [exact Hall|].
  apply (f_equal length) in Hnew. rewrite length_app in Hnew.
  vm_compute in Hnew. symmetry. exact Hnew.
Defined.

Lemma compress_image_encoder_call_witness :
  ∃ call,
    w_saved (fst (compress_image (H := pillow) "in/a.jpg" "out/a.jpg" 85 true
                    world_rgb_jpeg)) = [call]
    ∧ sa_exif (sc_args call) = None
    ∧ sc_format call = Some "JPEG"
    ∧ sc_image call = rgb_jpeg.
Proof.
  destruct (compress_image_encoder_call (H := pillow) "in/a.jpg" "out/a.jpg"
              85 true world_rgb_jpeg (file_of 100 rgb_jpeg) rgb_jpeg
              eq_refl eq_refl)
    as (call & Hsaved & _ & Hfmt & _ & Hexif & Himg & _).
  exists call. split; [exact Hsaved|]. split; [exact Hexif|].
  split; [exact Hfmt | exact Himg].
Defined.

Lemma failure_reports_zero_reduction_witness :
  fst (snd (convert_image (H := pillow) "in/wide.png" "out/wide.png" "webp" 80
              false world_wide_png))
  = (false,
     "Error: encoding error 5: Image size exceeds WebP limit of 16383 pixels")
  ∧ snd (snd (convert_image (H := pillow) "in/wide.png" "out/wide.png" "webp"
                80 false world_wide_png)) = 0%Q.
Proof.
  split; [vm_compute; reflexivity|].
  apply (proj2 (failure_reports_zero_reduction (H := pillow) "in/wide.png"
                  "out/wide.png" "webp" 80 false world_wide_png)).
  vm_compute. reflexivity.
Defined.

Lemma validated_quality_in_range_witness :
  ∃ new,
    w_saved (fst (compress_image (H := pillow) "in/a.jpg" "out/a.jpg" 100
                    false world_rgb_jpeg))
    = w_saved world_rgb_jpeg ++ new
    ∧ Forall (λ c, sa_quality (sc_args c) = Some 100 ∧ 1 ≤ 100 ≤ 100) new.
Proof.
  exact (proj1 (validated_quality_in_range (H := pillow) (PyInt 250) 100
                  "in/a.jpg" "out/a.jpg" "" false world_rgb_jpeg eq_refl)).
Defined.

Lemma has_exif_data_reads_only_witness :
  snd (has_exif_data "in/a.jpg" world_rgb_jpeg) = true
  ∧ snd (has_exif_data "in/missing.jpg" world_rgb_jpeg) = false.
Proof.
  split; [|reflexivity].
  apply (proj2 (proj2 (has_exif_data_reads_only "in/a.jpg" world_rgb_jpeg))).
  exists (file_of 100 rgb_jpeg), rgb_jpeg.
  split; [reflexivity|]. split; [reflexivity|].
  intros Hempty. apply (f_equal (λ m : Exif, m !! 274)) in Hempty.
  vm_compute in Hempty. discriminate Hempty.
Defined.

Lemma supported_formats_consistent_witness :
  "AVIF" ∈ get_supported_formats (inr {[ ".avif" := "AVIF"; ".png" := "PNG" ]})
  ∧ get_supported_formats
      (inl (mkException "ImportError" "No module named 'PIL'"))
    = ["Keep Original"; "WebP"].
Proof.
  split; [|reflexivity].
  apply (proj2 (proj1 (proj2 (supported_formats_consistent
                                (inr {[ ".avif" := "AVIF"; ".png" := "PNG" ]}))))).
  vm_compute. reflexivity.
Defined.

Lemma strip_metadata_outcomes_witness :
  length (w_saved (fst (strip_metadata (H := pillow) "in/a.jpg" "out/a.jpg"
                          world_rgb_jpeg))) = 1%nat
  ∧ snd (strip_metadata (H := pillow) "in/a.jpg" "out/a.jpg" world_rgb_jpeg)
    = (true, "Metadata removed successfully")
  ∧ fst (strip_metadata (H := pillow) "in/none.jpg" "out/a.jpg" world_rgb_jpeg)
    = world_rgb_jpeg.
Proof.
  destruct (proj2 (strip_metadata_outcomes (H := pillow) "in/a.jpg" "out/a.jpg"
                     world_rgb_jpeg) (file_of 100 rgb_jpeg) rgb_jpeg
              eq_refl eq_refl) as [Hworld Hresult].
  split; [rewrite Hworld; reflexivity|].
  split; [rewrite Hresult; reflexivity|].
  apply (proj1 (strip_metadata_outcomes (H := pillow) "in/none.jpg" "out/a.jpg"
                  world_rgb_jpeg)).
  intros f img Hf. vm_compute in Hf. discriminate Hf.
Defined.

(** The rendering rounds after the unit is chosen: one byte below a
    megabyte is shown as 1024.0 KB. *)
Example format_file_size_rounds_up :
  format_file_size (H := pillow) 1048575 = "1024.0 KB"
  ∧ format_file_size (H := pillow) 1048576 = "1.0 MB"
  ∧ format_file_size (H := pillow) 1023 = "1023 B".
Proof. repeat split; by vm_compute. Qed.

End MoreReferenceRuns.
